(** * Newsletter backend (server.js): model of the route handlers

    The handlers of [server.js] are embedded as functions in a small
    state-and-exception monad.  What lives outside the file is taken as
    data of the environment [Env]:

    - [process.env] (EMAIL_USER, EMAIL_PASS);
    - the relational engine: the two tables are lists of rows and every
      statement is given its meaning from the schema of
      [initializeDatabase] (SERIAL keys, NOT NULL, UNIQUE, defaults); the
      order in which a SELECT without ORDER BY returns its rows is the
      engine's, given by the oracle [scan_rank]; any other refusal of a
      statement (no connection, a parameter the engine cannot convert,
      ...) is decided by the oracle [pool_fault], and a refused statement
      changes nothing;
    - the mail provider behind [transporter.sendMail]: its verdict on each
      delivery is the oracle [provider];
    - the clock behind CURRENT_TIMESTAMP.

    Strings are byte strings (UTF-8).  Request fields are a string or
    absent ([None], which the driver sends as NULL); the [:id] of a route
    is the integer the engine reads it as.  Routes that never touch the
    pool (GET /api/test, GET /) and the start-up code (the pool, declared
    at lines 16 and 231, the connection test, [app.listen]) are left out.
    The mail library exports [createTransport]; the property
    [createTransporter] that line 55 calls is undefined in it, so that
    call throws a TypeError. *)

From Stdlib Require Import ZArith List String Ascii Bool Arith Lia DecimalString.
From Stdlib Require Import Sorted Permutation.
Import ListNotations.
Open Scope string_scope.

(** ** Strings *)

Definition LF : ascii := "010"%char.
Definition dq : string := String "034"%char EmptyString.
Definition nl : string := String LF EmptyString.

(** [`${n}`] for a non-negative integer. *)
Definition string_of_nat (n : nat) : string :=
  NilEmpty.string_of_uint (Nat.to_uint n).

(** [s.replace(/\n/g, '<br>')] *)
Fixpoint replace_newlines (s : string) : string :=
  match s with
  | EmptyString => EmptyString
  | String c rest =>
      if Ascii.eqb c LF then "<br>" ++ replace_newlines rest
      else String c (replace_newlines rest)
  end.

(** [!v] for a value that is a string or undefined. *)
Definition falsy (v : option string) : bool :=
  match v with
  | None => true
  | Some EmptyString => true
  | Some (String _ _) => false
  end.

(** [`${v}`] for a value that is a string or undefined. *)
Definition template_of (v : option string) : string :=
  match v with
  | None => "undefined"
  | Some s => s
  end.

(** ** Tables (schema of [initializeDatabase]) *)

Record Client := mkClient {
  c_id : Z;
  c_email : string;
  c_name : option string;
  c_company : option string;
  c_subscribed : bool;
  c_created_at : Z
}.

Record Newsletter := mkNewsletter {
  n_id : Z;
  n_subject : string;
  n_content : string;
  n_sent_count : Z;
  n_created_at : Z
}.

Record Db := mkDb {
  clients : list Client;
  clients_id_seq : Z;
  newsletters : list Newsletter;
  newsletters_id_seq : Z
}.

(** Both tables just created by [initializeDatabase]. *)
Definition empty_db : Db := mkDb [] 1 [] 1.

(** ** Errors, mail, console *)

Inductive JsError :=
| TypeError (msg : string)
| DatabaseError (msg : string)
| DeliveryError (msg : string).

Definition message (e : JsError) : string :=
  match e with
  | TypeError m => m
  | DatabaseError m => m
  | DeliveryError m => m
  end.

Record Mail := mkMail {
  m_from : option string;
  m_to : string;
  m_subject : string;
  m_html : string
}.

Record Transporter := mkTransporter {
  auth_user : option string;
  auth_pass : option string
}.

(** A [sendMail] call with the provider's verdict ([None]: delivered). *)
Definition Delivery : Type := Mail * option string.

Inductive ConsoleArg :=
| Text (s : string)
| Err (e : JsError).

Inductive ConsoleLine :=
| Log (args : list ConsoleArg)
| Error (args : list ConsoleArg).

(** ** Environment and world *)

Record Env := mkEnv {
  EMAIL_USER : option string;
  EMAIL_PASS : option string;
  (** the [k]-th statement sent to the pool is refused with this message *)
  pool_fault : nat -> option string;
  (** CURRENT_TIMESTAMP while the [k]-th statement runs *)
  CURRENT_TIMESTAMP : nat -> Z;
  (** the provider's answer to the [k]-th delivery *)
  provider : Transporter -> nat -> Mail -> option string;
  (** where a scan running at a given time finds a client row: rows of
      higher rank come first *)
  scan_rank : Z -> Client -> Z
}.

Record World := mkWorld {
  db : Db;
  statements : nat;
  outbox : list Delivery;
  console : list ConsoleLine
}.

Definition initial_world : World := mkWorld empty_db 0 [] [].

(** ** The monad: state [S], results or thrown errors *)

Inductive Outcome (A : Type) :=
| Return (a : A)
| Throw (e : JsError).
Arguments Return {A} a.
Arguments Throw {A} e.

Definition M (S A : Type) : Type := S -> Outcome A * S.

Definition ret {S A} (a : A) : M S A := fun s => (Return a, s).

Definition throw {S A} (e : JsError) : M S A := fun s => (Throw e, s).

Definition bind {S A B} (m : M S A) (k : A -> M S B) : M S B :=
  fun s =>
    match m s with
    | (Return a, s') => k a s'
    | (Throw e, s') => (Throw e, s')
    end.

(** [try { body } catch (e) { handler }] *)
Definition try_catch {S A} (body : M S A) (handler : JsError -> M S A) : M S A :=
  fun s =>
    match body s with
    | (Return a, s') => (Return a, s')
    | (Throw e, s') => handler e s'
    end.

Declare Scope js_scope.
Delimit Scope js_scope with js.
Notation "x <- m ;; k" := (bind m (fun x => k))
  (at level 61, m at next level, right associativity) : js_scope.
Notation "m ;; k" := (bind m (fun _ => k))
  (at level 61, right associativity) : js_scope.
Open Scope js_scope.

(** ** Console *)

Definition console_log (args : list ConsoleArg) : M World unit :=
  fun w => (Return tt,
            mkWorld (db w) (statements w) (outbox w) (console w ++ [Log args])).

Definition console_error (args : list ConsoleArg) : M World unit :=
  fun w => (Return tt,
            mkWorld (db w) (statements w) (outbox w) (console w ++ [Error args])).

(** ** Persistence: [pool.query] *)

(** A statement maps the clock and the tables to rows or an engine error,
    and to the tables afterwards. *)
Definition Statement (A : Type) : Type := Z -> Db -> (JsError + A) * Db.

Definition pool_query {A} (env : Env) (stmt : Statement A) : M World A :=
  fun w =>
    let k := statements w in
    match pool_fault env k with
    | Some msg =>
        (Throw (DatabaseError msg),
         mkWorld (db w) (S k) (outbox w) (console w))
    | None =>
        match stmt (CURRENT_TIMESTAMP env k) (db w) with
        | (inl e, d) => (Throw e, mkWorld d (S k) (outbox w) (console w))
        | (inr a, d) => (Return a, mkWorld d (S k) (outbox w) (console w))
        end
    end.

Definition not_null_violation (column relation : string) : JsError :=
  DatabaseError ("null value in column " ++ dq ++ column ++ dq
                 ++ " of relation " ++ dq ++ relation ++ dq
                 ++ " violates not-null constraint").

Definition has_email (e : string) (c : Client) : bool := String.eqb (c_email c) e.

(** INSERT INTO clients (email, name, company) VALUES ($1, $2, $3)
    ON CONFLICT (email) DO NOTHING RETURNING *

    The key is drawn from the sequence when the row is formed, before the
    constraints are looked at, so a refused or skipped row leaves a gap. *)
Definition insert_client (email name company : option string) : Statement (list Client) :=
  fun now d =>
    let id := clients_id_seq d in
    match email with
    | None =>
        (inl (not_null_violation "email" "clients"),
         mkDb (clients d) (id + 1) (newsletters d) (newsletters_id_seq d))
    | Some e =>
        if existsb (has_email e) (clients d) then
          (inr [], mkDb (clients d) (id + 1) (newsletters d) (newsletters_id_seq d))
        else
          let row := mkClient id e name company true now in
          (inr [row],
           mkDb (clients d ++ [row]) (id + 1) (newsletters d) (newsletters_id_seq d))
    end.

(** Insertion of [x] into a list sorted newest first. *)
Fixpoint insert_desc {A} (key : A -> Z) (x : A) (l : list A) : list A :=
  match l with
  | [] => [x]
  | y :: l' => if (key y <? key x)%Z then x :: l else y :: insert_desc key x l'
  end.

(** ORDER BY key DESC (rows of equal key in an order the engine picks). *)
Definition order_by_desc {A} (key : A -> Z) (l : list A) : list A :=
  fold_right (insert_desc key) [] l.

(** SELECT * FROM clients ORDER BY created_at DESC *)
Definition select_clients : Statement (list Client) :=
  fun _ d => (inr (order_by_desc c_created_at (clients d)), d).

(** INSERT INTO newsletters (subject, content) VALUES ($1, $2) RETURNING * *)
Definition insert_newsletter (subject content : option string) : Statement (list Newsletter) :=
  fun now d =>
    let id := newsletters_id_seq d in
    let d' := mkDb (clients d) (clients_id_seq d) (newsletters d) (id + 1) in
    match subject, content with
    | None, _ => (inl (not_null_violation "subject" "newsletters"), d')
    | Some _, None => (inl (not_null_violation "content" "newsletters"), d')
    | Some s, Some c =>
        let row := mkNewsletter id s c 0 now in
        (inr [row], mkDb (clients d) (clients_id_seq d) (newsletters d ++ [row]) (id + 1))
    end.

(** SELECT * FROM newsletters ORDER BY created_at DESC *)
Definition select_newsletters : Statement (list Newsletter) :=
  fun _ d => (inr (order_by_desc n_created_at (newsletters d)), d).

Definition has_id (id : Z) (n : Newsletter) : bool := (n_id n =? id)%Z.

(** SELECT * FROM newsletters WHERE id = $1 *)
Definition select_newsletter (id : Z) : Statement (list Newsletter) :=
  fun _ d => (inr (filter (has_id id) (newsletters d)), d).

(** SELECT * FROM clients WHERE subscribed = true

    There is no ORDER BY: the rows come in the order the engine's scan
    finds them, which inserts and updates change. *)
Definition select_subscribed (env : Env) : Statement (list Client) :=
  fun now d =>
    (inr (order_by_desc (scan_rank env now) (filter c_subscribed (clients d))), d).

Definition set_sent_count (count : Z) (n : Newsletter) : Newsletter :=
  mkNewsletter (n_id n) (n_subject n) (n_content n) count (n_created_at n).

(** SET sent_count = count, on the rows WHERE id = id. *)
Definition store_sent_count (count : Z) (id : Z) (n : Newsletter) : Newsletter :=
  if has_id id n then set_sent_count count n else n.

(** UPDATE newsletters SET sent_count = $1 WHERE id = $2 *)
Definition update_sent_count (count : Z) (id : Z) : Statement unit :=
  fun _ d =>
    (inr tt,
     mkDb (clients d) (clients_id_seq d)
          (map (store_sent_count count id) (newsletters d))
          (newsletters_id_seq d)).

Definition set_subscribed (b : bool) (c : Client) : Client :=
  mkClient (c_id c) (c_email c) (c_name c) (c_company c) b (c_created_at c).

(** SET subscribed = false, on the rows WHERE email = email (a NULL
    parameter compares equal to nothing). *)
Definition unsubscribe_row (email : option string) (c : Client) : Client :=
  match email with
  | Some e => if has_email e c then set_subscribed false c else c
  | None => c
  end.

(** UPDATE clients SET subscribed = false WHERE email = $1 *)
Definition update_unsubscribe (email : option string) : Statement unit :=
  fun _ d =>
    (inr tt,
     mkDb (map (unsubscribe_row email) (clients d))
          (clients_id_seq d) (newsletters d) (newsletters_id_seq d)).

(** SELECT COUNT( * ) ... , read back with [parseInt]. *)
Definition count_clients : Statement nat :=
  fun _ d => (inr (List.length (clients d)), d).
Definition count_subscribed : Statement nat :=
  fun _ d => (inr (List.length (filter c_subscribed (clients d))), d).
Definition count_newsletters : Statement nat :=
  fun _ d => (inr (List.length (newsletters d)), d).

(** ** Mail dispatcher *)

(** [nodemailer.createTransporter(options)]: the library has no such
    function (it exports [createTransport]), so the call throws. *)
Definition nodemailer_createTransporter {S} (options : Transporter) : M S Transporter :=
  throw (TypeError "nodemailer.createTransporter is not a function").

Definition createTransporter {S} (env : Env) : M S Transporter :=
  nodemailer_createTransporter (mkTransporter (EMAIL_USER env) (EMAIL_PASS env)).

(** [await transporter.sendMail(mail)]: one delivery, recorded with its
    verdict; a refusal is thrown. *)
Definition sendMail (env : Env) (transporter : Transporter) (mail : Mail) : M World unit :=
  fun w =>
    let verdict := provider env transporter (List.length (outbox w)) mail in
    let w' := mkWorld (db w) (statements w) (outbox w ++ [(mail, verdict)]) (console w) in
    match verdict with
    | None => (Return tt, w')
    | Some msg => (Throw (DeliveryError msg), w')
    end.

(** ** Responses *)

Inductive Json :=
| JError (error : string)
| JClient (text : string) (client : Client)
| JClients (rows : list Client)
| JNewsletter (text : string) (newsletter : option Newsletter)
| JNewsletters (rows : list Newsletter)
| JSend (text : string) (sent total : nat) (testMode : bool)
| JStats (total_clients subscribed_clients total_newsletters : nat)
| JMessage (text : string).

Record Response := mkResponse {
  status : nat;
  json : Json
}.

(** ** POST /api/clients *)

Definition post_clients (env : Env) (email name company : option string) : M World Response :=
  try_catch
    (rows <- pool_query env (insert_client email name company) ;;
     match rows with
     | [] => ret (mkResponse 409 (JError "Email već postoji"))
     | client :: _ => ret (mkResponse 200 (JClient "Klijent uspješno dodan" client))
     end)
    (fun error =>
       console_error [Text "Error adding client:"; Err error] ;;
       ret (mkResponse 500 (JError (message error)))).

(** ** GET /api/clients *)

Definition get_clients (env : Env) : M World Response :=
  try_catch
    (rows <- pool_query env select_clients ;;
     ret (mkResponse 200 (JClients rows)))
    (fun error => ret (mkResponse 500 (JError (message error)))).

(** ** POST /api/newsletters *)

Definition post_newsletters (env : Env) (subject content : option string) : M World Response :=
  try_catch
    (rows <- pool_query env (insert_newsletter subject content) ;;
     ret (mkResponse 200 (JNewsletter "Newsletter kreiran" (hd_error rows))))
    (fun error => ret (mkResponse 500 (JError (message error)))).

(** ** GET /api/newsletters *)

Definition get_newsletters (env : Env) : M World Response :=
  try_catch
    (rows <- pool_query env select_newsletters ;;
     ret (mkResponse 200 (JNewsletters rows)))
    (fun error => ret (mkResponse 500 (JError (message error)))).

(** ** POST /api/newsletters/:id/send *)

(** Reading [.email] of [clients[i]], which is undefined past the end. *)
Definition undefined_property (p : string) : JsError :=
  TypeError ("Cannot read properties of undefined (reading '" ++ p ++ "')").

Definition email_of {S} (client : option Client) : M S string :=
  match client with
  | Some c => ret (c_email c)
  | None => throw (undefined_property "email")
  end.

Fixpoint spaces (n : nat) : string :=
  match n with
  | 0 => EmptyString
  | S n' => String " "%char (spaces n')
  end.

(** The template literal handed to [sendMail] as [html]. *)
Definition html_body (newsletter : Newsletter) (origin : option string) (email : string) : string :=
  nl ++ spaces 14 ++ "<div style=" ++ dq
     ++ "font-family: Arial, sans-serif; max-width: 600px; margin: 0 auto;" ++ dq ++ ">"
  ++ nl ++ spaces 16 ++ "<h2>" ++ n_subject newsletter ++ "</h2>"
  ++ nl ++ spaces 16 ++ "<div>" ++ replace_newlines (n_content newsletter) ++ "</div>"
  ++ nl ++ spaces 16 ++ "<hr>"
  ++ nl ++ spaces 16 ++ "<p style=" ++ dq ++ "color: #666; font-size: 12px;" ++ dq ++ ">"
  ++ nl ++ spaces 18 ++ "Pošaljeno putem Newsletter App<br>"
  ++ nl ++ spaces 18 ++ "<a href=" ++ dq ++ template_of origin ++ "/unsubscribe?email=" ++ email
     ++ dq ++ ">Otkaži pretplatu</a>"
  ++ nl ++ spaces 16 ++ "</p>"
  ++ nl ++ spaces 14 ++ "</div>"
  ++ nl ++ spaces 12.

(** The handler's locals that the loop writes: the world and [sentCount]. *)
Record SendFrame := mkFrame {
  world : World;
  sentCount : nat
}.

Definition lift {A} (m : M World A) : M SendFrame A :=
  fun f =>
    match m (world f) with
    | (r, w') => (r, mkFrame w' (sentCount f))
    end.

(** [sentCount++] *)
Definition incr_sentCount : M SendFrame unit :=
  fun f => (Return tt, mkFrame (world f) (S (sentCount f))).

(** [let sentCount = init; ...]: runs the statements that share the local
    and yields its last value. *)
Definition with_sentCount {A} (init : nat) (m : M SendFrame A) : M World nat :=
  fun w =>
    match m (mkFrame w init) with
    | (Return _, f) => (Return (sentCount f), world f)
    | (Throw e, f) => (Throw e, world f)
    end.

(** The body of the [for] loop for [client = clients[i]]. *)
Definition send_iteration (env : Env) (transporter : Transporter) (testMode : bool)
    (newsletter : Newsletter) (origin : option string) (client : option Client)
  : M SendFrame unit :=
  try_catch
    ((if negb testMode then
        to <- email_of client ;;
        recipient <- email_of client ;;
        lift (sendMail env transporter
                (mkMail (EMAIL_USER env) to (n_subject newsletter)
                        (html_body newsletter origin recipient)))
      else ret tt) ;;
     incr_sentCount ;;
     sent_to <- email_of client ;;
     lift (console_log [Text ("✅ Email sent to: " ++ sent_to)]))
    (fun emailError =>
       failed_to <- email_of client ;;
       lift (console_error [Text ("❌ Error sending to " ++ failed_to ++ ":");
                            Text (message emailError)])).

(** [for (let i = 0; i < maxEmails; i++)], with [remaining = maxEmails - i]. *)
Fixpoint send_loop (env : Env) (transporter : Transporter) (testMode : bool)
    (newsletter : Newsletter) (origin : option string) (clients : list Client)
    (remaining i : nat) : M SendFrame unit :=
  match remaining with
  | 0 => ret tt
  | S remaining' =>
      send_iteration env transporter testMode newsletter origin (nth_error clients i) ;;
      send_loop env transporter testMode newsletter origin clients remaining' (S i)
  end.

Definition send_message (testMode : bool) (sentCount : nat) : string :=
  if testMode then
    "📧 TEST MODE: Newsletter spreman za slanje na " ++ string_of_nat sentCount
      ++ " emailova (email nije konfiguriran)"
  else
    "✅ Newsletter poslan na " ++ string_of_nat sentCount ++ " email adresa".

Definition post_newsletters_send (env : Env) (newsletterId : Z) (origin : option string)
  : M World Response :=
  try_catch
    (newsletterResult <- pool_query env (select_newsletter newsletterId) ;;
     match newsletterResult with
     | [] => ret (mkResponse 404 (JError "Newsletter nije pronađen"))
     | newsletter :: _ =>
         clients <- pool_query env (select_subscribed env) ;;
         transporter <- createTransporter env ;;
         let testMode := falsy (EMAIL_USER env) in
         let maxEmails := if testMode then 3 else List.length clients in
         sentCount <- with_sentCount 0
                        (send_loop env transporter testMode newsletter origin
                                   clients maxEmails 0) ;;
         pool_query env (update_sent_count (Z.of_nat sentCount) newsletterId) ;;
         ret (mkResponse 200
                (JSend (send_message testMode sentCount) sentCount
                       (List.length clients) testMode))
     end)
    (fun error =>
       console_error [Text "Error sending newsletter:"; Err error] ;;
       ret (mkResponse 500 (JError (message error)))).

(** ** GET /api/stats *)

Definition get_stats (env : Env) : M World Response :=
  try_catch
    (total_clients <- pool_query env count_clients ;;
     subscribed_clients <- pool_query env count_subscribed ;;
     total_newsletters <- pool_query env count_newsletters ;;
     ret (mkResponse 200 (JStats total_clients subscribed_clients total_newsletters)))
    (fun error => ret (mkResponse 500 (JError (message error)))).

(** ** POST /api/unsubscribe *)

Definition post_unsubscribe (env : Env) (email : option string) : M World Response :=
  try_catch
    (pool_query env (update_unsubscribe email) ;;
     ret (mkResponse 200 (JMessage "Pretplata uspješno otkazana")))
    (fun error => ret (mkResponse 500 (JError (message error)))).

(** ** The API as a whole *)

Inductive Request :=
| PostClients (email name company : option string)
| GetClients
| PostNewsletters (subject content : option string)
| GetNewsletters
| PostNewslettersSend (id : Z) (origin : option string)
| GetStats
| PostUnsubscribe (email : option string).

Definition handle (env : Env) (r : Request) : M World Response :=
  match r with
  | PostClients email name company => post_clients env email name company
  | GetClients => get_clients env
  | PostNewsletters subject content => post_newsletters env subject content
  | GetNewsletters => get_newsletters env
  | PostNewslettersSend id origin => post_newsletters_send env id origin
  | GetStats => get_stats env
  | PostUnsubscribe email => post_unsubscribe env email
  end.

(** The world after a request, whatever was answered. *)
Definition after (env : Env) (r : Request) (w : World) : World := snd (handle env r w).

(** The world after a list of requests served one after the other. *)
Definition serve (env : Env) (rs : list Request) (w : World) : World :=
  fold_left (fun w r => after env r w) rs w.

(** ** Start-up: [initializeDatabase] *)

(** What the database holds around start-up: each table with its key
    sequence, or not created yet. *)
Record Catalog := mkCatalog {
  clients_table : option (list Client * Z);
  newsletters_table : option (list Newsletter * Z)
}.

Record Boot := mkBoot {
  catalog : Catalog;
  boot_statements : nat;
  boot_console : list ConsoleLine
}.

(** CREATE TABLE IF NOT EXISTS clients (...) *)
Definition create_clients (c : Catalog) : Catalog :=
  match clients_table c with
  | Some _ => c
  | None => mkCatalog (Some ([], 1%Z)) (newsletters_table c)
  end.

(** CREATE TABLE IF NOT EXISTS newsletters (...) *)
Definition create_newsletters (c : Catalog) : Catalog :=
  match newsletters_table c with
  | Some _ => c
  | None => mkCatalog (clients_table c) (Some ([], 1%Z))
  end.

(** [pool.query] of a CREATE TABLE statement. *)
Definition boot_query (env : Env) (ddl : Catalog -> Catalog) : M Boot unit :=
  fun b =>
    let k := boot_statements b in
    match pool_fault env k with
    | Some msg =>
        (Throw (DatabaseError msg), mkBoot (catalog b) (S k) (boot_console b))
    | None => (Return tt, mkBoot (ddl (catalog b)) (S k) (boot_console b))
    end.

Definition boot_console_log (args : list ConsoleArg) : M Boot unit :=
  fun b => (Return tt,
            mkBoot (catalog b) (boot_statements b) (boot_console b ++ [Log args])).

Definition boot_console_error (args : list ConsoleArg) : M Boot unit :=
  fun b => (Return tt,
            mkBoot (catalog b) (boot_statements b) (boot_console b ++ [Error args])).

Definition initializeDatabase (env : Env) : M Boot unit :=
  try_catch
    (boot_query env create_clients ;;
     boot_query env create_newsletters ;;
     boot_console_log [Text "✅ Database initialized successfully"])
    (fun error =>
       boot_console_error [Text "❌ Database initialization error:"; Err error]).

(** The tables the handlers work on, once both exist. *)
Definition tables (c : Catalog) : option Db :=
  match clients_table c, newsletters_table c with
  | Some (cs, cseq), Some (ns, nseq) => Some (mkDb cs cseq ns nseq)
  | _, _ => None
  end.

(** * Vocabulary of the statements *)

Open Scope list_scope.

(** [keeps R m]: whatever [m] answers, the state it leaves is related by
    [R] to the state it started from. *)
Definition keeps {S A} (R : S -> S -> Prop) (m : M S A) : Prop :=
  forall s, R s (snd (m s)).

(** A relation on tables, read on worlds. *)
Definition on_db (Rd : Db -> Db -> Prop) (w w' : World) : Prop := Rd (db w) (db w').

(** The loop never talks to the pool, and in test mode never to the
    provider either. *)
Definition loop_frame (testMode : bool) (w w' : World) : Prop :=
  db w' = db w /\ statements w' = statements w
  /\ (testMode = true -> outbox w' = outbox w).

Definition frame_rel (testMode : bool) (f f' : SendFrame) : Prop :=
  loop_frame testMode (world f) (world f').

(** The rows [SELECT * FROM clients WHERE subscribed = true] returns. *)
Definition subscribers (d : Db) : list Client := filter c_subscribed (clients d).

Definition error_line (e : JsError) : ConsoleLine :=
  Error [Text "Error sending newsletter:"; Err e].

(** A deployment without mail credentials, on a healthy database. *)
Definition no_credentials : Env :=
  mkEnv None None (fun _ => None) (fun k => Z.of_nat k) (fun _ _ _ => None)
        (fun _ c => (- c_id c)%Z).

Definition newsletter_request : Request :=
  PostNewsletters (Some "Novosti") (Some ("Prvi red" ++ nl ++ "Drugi red")%string).

Definition subscribe (email : string) : Request := PostClients (Some email) None None.

Definition five_subscribers : World :=
  serve no_credentials
        [subscribe "a@example.com"; subscribe "b@example.com"; subscribe "c@example.com";
         subscribe "d@example.com"; subscribe "e@example.com"; newsletter_request]
        initial_world.

Definition two_subscribers : World :=
  serve no_credentials
        [subscribe "a@example.com"; subscribe "b@example.com"; newsletter_request]
        initial_world.

(** A deployment with mail credentials whose provider answers the [k]-th
    delivery with [verdicts k]. *)
Definition with_credentials (verdicts : nat -> option string) : Env :=
  mkEnv (Some "sender@example.com") (Some "secret") (fun _ => None)
        (fun k => Z.of_nat k) (fun _ k _ => verdicts k) (fun _ c => (- c_id c)%Z).

Definition all_delivered : Env := with_credentials (fun _ => None).

Definition emails (d : Db) : list string := map c_email (clients d).

(** Invariant: email is unique across all client rows. *)
Definition emails_unique (d : Db) : Prop := NoDup (emails d).

(** The rows [SELECT * FROM clients WHERE email = e] would return. *)
Definition rows_with_email (e : string) (d : Db) : list Client :=
  filter (has_email e) (clients d).

(** No statement drops an email, and none breaks uniqueness. *)
Definition emails_kept (d d' : Db) : Prop :=
  (emails_unique d -> emails_unique d')
  /\ (forall e, In e (emails d) -> In e (emails d')).

Definition world_kept : World -> World -> Prop := on_db emails_kept.

(** What a client row keeps through an unsubscribe for [email]. *)
Definition row_kept (email : option string) (c c' : Client) : Prop :=
  c_id c' = c_id c /\ c_email c' = c_email c /\ c_name c' = c_name c
  /\ c_company c' = c_company c /\ c_created_at c' = c_created_at c
  /\ (Some (c_email c) <> email -> c' = c).

(** A database whose second statement from now on is refused. *)
Definition subscribers_unreadable : Env :=
  mkEnv None None
        (fun k => if Nat.eqb k (S (statements two_subscribers))
                  then Some "Connection terminated unexpectedly" else None)
        (fun k => Z.of_nat k) (fun _ _ _ => None) (fun _ c => (- c_id c)%Z).



Fixpoint has_newline (s : string) : bool :=
  match s with
  | EmptyString => false
  | String c rest => Ascii.eqb c LF || has_newline rest
  end.

(** Rows listed newest first. *)
Definition newest_first {A} (key : A -> Z) (rows : list A) : Prop :=
  StronglySorted (fun a b => (key b <= key a)%Z) rows.

(** A catalog with neither table, and one whose clients table already
    holds a row. *)
Definition empty_catalog : Catalog := mkCatalog None None.

Definition clients_only : Catalog :=
  mkCatalog (Some ([mkClient 1 "a@example.com" None None true 0], 2%Z)) None.

Definition boot (c : Catalog) : Boot := mkBoot c 0 [].

(** A database that refuses its [k]-th statement. *)
Definition refusing (k : nat) : Env :=
  mkEnv None None
        (fun i => if Nat.eqb i k then Some "Connection terminated unexpectedly" else None)
        (fun i => Z.of_nat i) (fun _ _ _ => None) (fun _ c => (- c_id c)%Z).

(** The recipients of a list of deliveries. *)
Definition recipients (ds : list Delivery) : list string :=
  map (fun d => m_to (fst d)) ds.

(** What a newsletter row keeps through a send for [id]. *)
Definition newsletter_kept (id : Z) (n n' : Newsletter) : Prop :=
  n_id n' = n_id n /\ n_subject n' = n_subject n /\ n_content n' = n_content n
  /\ n_created_at n' = n_created_at n
  /\ (n_id n <> id -> n' = n).

(** The requests that start a campaign. *)
Definition is_send (r : Request) : bool :=
  match r with
  | PostNewslettersSend _ _ => true
  | _ => false
  end.

(** What a client row may turn into: every field stays but [subscribed],
    which can only go from true to false. *)
Definition client_evolves (c c' : Client) : Prop :=
  c_id c' = c_id c /\ c_email c' = c_email c /\ c_name c' = c_name c
  /\ c_company c' = c_company c /\ c_created_at c' = c_created_at c
  /\ (c_subscribed c' = true -> c_subscribed c = true).

(** What a newsletter row may turn into: every field stays but
    [sent_count]. *)
Definition newsletter_evolves (n n' : Newsletter) : Prop :=
  n_id n' = n_id n /\ n_subject n' = n_subject n /\ n_content n' = n_content n
  /\ n_created_at n' = n_created_at n.

(** The rows of a table later on: the old rows, each evolved, in their
    order, then whatever rows were added. *)
Definition rows_evolve {A} (ev : A -> A -> Prop) (rows rows' : list A) : Prop :=
  exists kept added, rows' = kept ++ added /\ Forall2 ev rows kept.

Definition db_evolves (d d' : Db) : Prop :=
  rows_evolve client_evolves (clients d) (clients d')
  /\ rows_evolve newsletter_evolves (newsletters d) (newsletters d').

(** Email [e] has a row, and no row with it is subscribed. *)
Definition unsubscribed_for (e : string) (d : Db) : Prop :=
  In e (emails d)
  /\ forall c, In c (clients d) -> c_email c = e -> c_subscribed c = false.

(** Primary keys: distinct within each table and below the table's
    sequence. *)
Definition keys_fresh (d : Db) : Prop :=
  NoDup (map c_id (clients d))
  /\ Forall (fun c => (c_id c < clients_id_seq d)%Z) (clients d)
  /\ NoDup (map n_id (newsletters d))
  /\ Forall (fun n => (n_id n < newsletters_id_seq d)%Z) (newsletters d).

(** The deliveries on record are the same. *)
Definition same_outbox (w w' : World) : Prop := outbox w' = outbox w.

(** The requests that create a client. *)
Definition is_post_clients (r : Request) : bool :=
  match r with
  | PostClients _ _ _ => true
  | _ => false
  end.

(** What the answer to a request says of what the request did. *)
Definition answer_of (env : Env) (r : Request) (w : World) : Outcome Response :=
  fst (handle env r w).

(** The console lines are the same. *)
Definition same_console (w w' : World) : Prop := console w' = console w.

(** The number of newline characters of [s]. *)
Fixpoint count_newlines (s : string) : nat :=
  match s with
  | EmptyString => 0
  | String c rest => (if Ascii.eqb c LF then 1 else 0) + count_newlines rest
  end.

(** The rows of a table later on, whatever their order: the old rows are
    still there, each evolved, beside whatever rows were added. *)
Definition rows_survive {A} (ev : A -> A -> Prop) (rows rows' : list A) : Prop :=
  exists kept added, Permutation rows' (kept ++ added) /\ Forall2 ev rows kept.

(** * Reasoning about the monad *)

Section Keeps.
Context {S : Type} (R : S -> S -> Prop).
Hypothesis R_refl : forall s, R s s.
Hypothesis R_trans : forall a b c, R a b -> R b c -> R a c.

Lemma keeps_ret {A} (a : A) : keeps R (ret a).
Proof. intro s. apply R_refl. Qed.

Lemma keeps_throw {A} (e : JsError) : keeps R (@throw S A e).
Proof. intro s. apply R_refl. Qed.

Lemma keeps_bind {A B} (m : M S A) (k : A -> M S B) :
  keeps R m -> (forall a, keeps R (k a)) -> keeps R (bind m k).
Proof.
  intros Hm Hk s. unfold bind.
  specialize (Hm s). destruct (m s) as [[a|e] s1]; simpl in *.
  - eapply R_trans; [exact Hm | apply Hk].
  - exact Hm.
Qed.

Lemma keeps_try_catch {A} (body : M S A) (handler : JsError -> M S A) :
  keeps R body -> (forall e, keeps R (handler e)) -> keeps R (try_catch body handler).
Proof.
  intros Hb Hh s. unfold try_catch.
  specialize (Hb s). destruct (body s) as [[a|e] s1]; simpl in *.
  - exact Hb.
  - eapply R_trans; [exact Hb | apply Hh].
Qed.
End Keeps.

Lemma keeps_with_sentCount {A} (R : World -> World -> Prop) init (m : M SendFrame A) :
  keeps (fun f f' => R (world f) (world f')) m -> keeps R (with_sentCount init m).
Proof.
  intros Hm w. unfold with_sentCount. specialize (Hm (mkFrame w init)).
  destruct (m (mkFrame w init)) as [[a|e] f]; exact Hm.
Qed.

Lemma keeps_pool_query {A} (Rd : Db -> Db -> Prop) env (stmt : Statement A) :
  (forall d, Rd d d) ->
  (forall now d, Rd d (snd (stmt now d))) ->
  keeps (on_db Rd) (pool_query env stmt).
Proof.
  intros Hrefl Hs w. unfold pool_query, on_db.
  destruct (pool_fault env (statements w)); simpl; [apply Hrefl|].
  specialize (Hs (CURRENT_TIMESTAMP env (statements w)) (db w)).
  destruct (stmt (CURRENT_TIMESTAMP env (statements w)) (db w)) as [[e|a] d]; exact Hs.
Qed.

Lemma keeps_console_error (Rd : Db -> Db -> Prop) args :
  (forall d, Rd d d) -> keeps (on_db Rd) (console_error args).
Proof. intros Hrefl w. apply Hrefl. Qed.

Lemma keeps_createTransporter {S} (R : S -> S -> Prop) env :
  (forall s, R s s) -> keeps R (@createTransporter S env).
Proof. intros Hrefl s. apply Hrefl. Qed.

(** ** What the send loop leaves alone *)

Lemma loop_frame_refl testMode w : loop_frame testMode w w.
Proof. repeat split. Qed.

Lemma loop_frame_trans testMode a b c :
  loop_frame testMode a b -> loop_frame testMode b c -> loop_frame testMode a c.
Proof.
  intros (H1 & H2 & H3) (H4 & H5 & H6). repeat split; try congruence.
  intro T. rewrite (H6 T). auto.
Qed.

Lemma frame_rel_refl testMode f : frame_rel testMode f f.
Proof. apply loop_frame_refl. Qed.

Lemma frame_rel_trans testMode a b c :
  frame_rel testMode a b -> frame_rel testMode b c -> frame_rel testMode a c.
Proof. apply loop_frame_trans. Qed.

Lemma keeps_email_of {S} (R : S -> S -> Prop) client :
  (forall s, R s s) -> keeps R (@email_of S client).
Proof. intros Hrefl. destruct client; intro s; apply Hrefl. Qed.

Lemma send_iteration_frame env tr testMode newsletter origin client :
  keeps (frame_rel testMode)
        (send_iteration env tr testMode newsletter origin client).
Proof.
  pose proof (frame_rel_refl testMode) as Hr.
  pose proof (frame_rel_trans testMode) as Ht.
  assert (Hemail : keeps (frame_rel testMode) (@email_of SendFrame client))
    by (apply keeps_email_of; exact Hr).
  unfold send_iteration.
  apply keeps_try_catch; [exact Ht | | ].
  - apply keeps_bind; [exact Ht | | intros _ ].
    + destruct testMode; simpl.
      * apply keeps_ret; exact Hr.
      * apply keeps_bind; [exact Ht | exact Hemail | intro to ].
        apply keeps_bind; [exact Ht | exact Hemail | intro rc ].
        intro f. unfold lift, sendMail, frame_rel, loop_frame.
        destruct (provider env tr _ _); simpl; repeat split; discriminate.
    + apply keeps_bind; [exact Ht | | intros _ ].
      * intro f. apply loop_frame_refl.
      * apply keeps_bind; [exact Ht | exact Hemail | ].
        intros e f. repeat split.
  - intro e. apply keeps_bind; [exact Ht | exact Hemail | ].
    intros e' f. repeat split.
Qed.

Lemma send_loop_frame env tr testMode newsletter origin cs remaining :
  forall i,
    keeps (frame_rel testMode)
          (send_loop env tr testMode newsletter origin cs remaining i).
Proof.
  induction remaining as [|r IH]; intro i; simpl.
  - apply keeps_ret. apply frame_rel_refl.
  - apply keeps_bind.
    + apply frame_rel_trans.
    + apply send_iteration_frame.
    + intros _. apply IH.
Qed.

(** ** The send handler, path by path *)

Lemma send_first_fault env id origin w msg :
  pool_fault env (statements w) = Some msg ->
  post_newsletters_send env id origin w =
  (Return (mkResponse 500 (JError msg)),
   mkWorld (db w) (S (statements w)) (outbox w)
           (console w ++ [error_line (DatabaseError msg)])).
Proof.
  intro H. unfold post_newsletters_send, try_catch, bind, pool_query.
  rewrite H. reflexivity.
Qed.

Lemma send_not_found env id origin w :
  pool_fault env (statements w) = None ->
  filter (has_id id) (newsletters (db w)) = [] ->
  post_newsletters_send env id origin w =
  (Return (mkResponse 404 (JError "Newsletter nije pronađen")),
   mkWorld (db w) (S (statements w)) (outbox w) (console w)).
Proof.
  intros H F. unfold post_newsletters_send, try_catch, bind, pool_query.
  rewrite H. simpl. rewrite F. reflexivity.
Qed.

Lemma send_second_fault env id origin w newsletter rest msg :
  pool_fault env (statements w) = None ->
  filter (has_id id) (newsletters (db w)) = newsletter :: rest ->
  pool_fault env (S (statements w)) = Some msg ->
  post_newsletters_send env id origin w =
  (Return (mkResponse 500 (JError msg)),
   mkWorld (db w) (S (S (statements w))) (outbox w)
           (console w ++ [error_line (DatabaseError msg)])).
Proof.
  intros H F H2. unfold post_newsletters_send, try_catch, bind, pool_query.
  rewrite H. simpl. rewrite F. simpl. rewrite H2. reflexivity.
Qed.

Lemma filter_none {A} (p : A -> bool) (l : list A) :
  (forall x, In x l -> p x = false) -> filter p l = [].
Proof.
  induction l as [|a l IH]; simpl; intro H; [reflexivity|].
  rewrite (H a (or_introl eq_refl)). apply IH. intros x Hx. apply H. now right.
Qed.

(** Once the newsletter and the subscribers are read the handler asks for
    a transporter (line 154), and that call throws: the loop, the UPDATE
    and the 200 answer are never reached. *)
Lemma send_transporter_fault env id origin w newsletter rest :
  pool_fault env (statements w) = None ->
  filter (has_id id) (newsletters (db w)) = newsletter :: rest ->
  pool_fault env (S (statements w)) = None ->
  post_newsletters_send env id origin w =
  (Return (mkResponse 500 (JError "nodemailer.createTransporter is not a function")),
   mkWorld (db w) (S (S (statements w))) (outbox w)
           (console w
            ++ [error_line (TypeError "nodemailer.createTransporter is not a function")])).
Proof.
  intros H F H2. unfold post_newsletters_send, try_catch, bind, pool_query.
  rewrite H. simpl. rewrite F. simpl. rewrite H2. reflexivity.
Qed.

(** What a send answers and what it leaves, whichever path it takes. *)
Lemma send_outcome env id origin w :
  db (snd (post_newsletters_send env id origin w)) = db w
  /\ outbox (snd (post_newsletters_send env id origin w)) = outbox w
  /\ ((exists e,
          fst (post_newsletters_send env id origin w)
          = Return (mkResponse 500 (JError e)))
      \/ fst (post_newsletters_send env id origin w)
         = Return (mkResponse 404 (JError "Newsletter nije pronađen"))).
Proof.
  destruct (pool_fault env (statements w)) as [msg|] eqn:H.
  { rewrite (send_first_fault _ _ _ _ _ H). simpl. eauto. }
  destruct (filter (has_id id) (newsletters (db w))) as [|n rest] eqn:F.
  { rewrite (send_not_found _ _ _ _ H F). simpl. auto. }
  destruct (pool_fault env (S (statements w))) as [msg|] eqn:H2.
  { rewrite (send_second_fault _ _ _ _ _ _ _ H F H2). simpl. eauto. }
  rewrite (send_transporter_fault _ _ _ _ _ _ H F H2). simpl. eauto.
Qed.

(** ** Sending in test mode and in live mode *)

(** C1: in test mode a send is meant to count min(3, subscribers)
    recipients, deliver nothing, answer sent, total and testMode = true and
    store the count.  With five subscribers, no credentials and newsletter
    1 in place, the handler answers 500 with the TypeError of its call of
    nodemailer.createTransporter; the tables, sent_count = 0 included, and
    the outbox are as before. *)
Theorem send_test_mode_fails_at_transporter :
  EMAIL_USER no_credentials = None
  /\ List.length (subscribers (db five_subscribers)) = 5
  /\ map n_id (newsletters (db five_subscribers)) = [1%Z]
  /\ map n_sent_count (newsletters (db five_subscribers)) = [0%Z]
  /\ fst (post_newsletters_send no_credentials 1 None five_subscribers)
     = Return (mkResponse 500
                 (JError "nodemailer.createTransporter is not a function"))
  /\ db (snd (post_newsletters_send no_credentials 1 None five_subscribers))
     = db five_subscribers
  /\ outbox (snd (post_newsletters_send no_credentials 1 None five_subscribers)) = [].
Proof. vm_compute. repeat split. Qed.

(** C2: in live mode a send is meant to attempt a delivery to every
    subscribed client and answer sent, total and testMode = false.  With
    two subscribers, credentials, a provider that accepts everything and
    newsletter 1 in place, the handler answers 500 with the TypeError of
    its call of nodemailer.createTransporter before any delivery: the
    outbox stays empty and sent_count stays 0. *)
Theorem send_live_mode_fails_at_transporter :
  falsy (EMAIL_USER all_delivered) = false
  /\ List.length (subscribers (db two_subscribers)) = 2
  /\ map n_id (newsletters (db two_subscribers)) = [1%Z]
  /\ fst (post_newsletters_send all_delivered 1 None two_subscribers)
     = Return (mkResponse 500
                 (JError "nodemailer.createTransporter is not a function"))
  /\ outbox (snd (post_newsletters_send all_delivered 1 None two_subscribers)) = []
  /\ map n_sent_count
         (newsletters (db (snd (post_newsletters_send all_delivered 1 None
                                  two_subscribers)))) = [0%Z].
Proof. vm_compute. repeat split. Qed.

(** ** Client emails *)

Lemma emails_kept_refl d : emails_kept d d.
Proof. split; auto. Qed.

Lemma emails_kept_trans a b c : emails_kept a b -> emails_kept b c -> emails_kept a c.
Proof. intros [H1 H2] [H3 H4]. split; auto. Qed.

Lemma emails_kept_same d d' : clients d' = clients d -> emails_kept d d'.
Proof. intro H. unfold emails_kept, emails_unique, emails. rewrite H. auto. Qed.

Lemma existsb_has_email e cs :
  existsb (has_email e) cs = true <-> In e (map c_email cs).
Proof.
  rewrite existsb_exists, in_map_iff. unfold has_email.
  split; intros (c & H1 & H2).
  - exists c. apply String.eqb_eq in H2. auto.
  - exists c. split; [exact H2|]. apply String.eqb_eq. exact H1.
Qed.

Lemma insert_client_kept email name company now d :
  emails_kept d (snd (insert_client email name company now d)).
Proof.
  unfold insert_client. destruct email as [e|]; [|apply emails_kept_same; reflexivity].
  destruct (existsb (has_email e) (clients d)) eqn:X;
    [apply emails_kept_same; reflexivity|].
  assert (N : ~ In e (emails d)).
  { intro I. apply existsb_has_email in I. congruence. }
  unfold emails_kept, emails_unique, emails in *. simpl. rewrite map_app. simpl. split.
  - intro U. apply NoDup_app; [exact U | repeat constructor; intros [] |].
    intros a Ia [<-|[]]. exact (N Ia).
  - intros a Ia. apply in_app_iff. now left.
Qed.

Lemma update_unsubscribe_emails email now d :
  emails (snd (update_unsubscribe email now d)) = emails d.
Proof.
  unfold emails, update_unsubscribe. simpl. rewrite map_map. apply map_ext.
  intro c. unfold unsubscribe_row. destruct email as [e|]; [|reflexivity].
  destruct (has_email e c); reflexivity.
Qed.

Lemma update_unsubscribe_kept email now d :
  emails_kept d (snd (update_unsubscribe email now d)).
Proof.
  unfold emails_kept, emails_unique. rewrite update_unsubscribe_emails. auto.
Qed.

Lemma insert_newsletter_kept subject content now d :
  emails_kept d (snd (insert_newsletter subject content now d)).
Proof.
  unfold insert_newsletter.
  destruct subject, content; apply emails_kept_same; reflexivity.
Qed.

Lemma world_kept_refl w : world_kept w w.
Proof. apply emails_kept_refl. Qed.

Lemma world_kept_trans a b c : world_kept a b -> world_kept b c -> world_kept a c.
Proof. apply emails_kept_trans. Qed.

Lemma keeps_weaken {S A} (R R' : S -> S -> Prop) (m : M S A) :
  (forall s s', R s s' -> R' s s') -> keeps R m -> keeps R' m.
Proof. intros H K s. apply H, K. Qed.

Ltac keeps_emails :=
  repeat first
    [ apply keeps_try_catch; [exact world_kept_trans | | intro ]
    | apply keeps_bind; [exact world_kept_trans | | intro ]
    | apply keeps_ret; exact world_kept_refl
    | apply keeps_createTransporter; exact world_kept_refl
    | apply keeps_console_error; exact emails_kept_refl
    | apply keeps_pool_query;
      [ exact emails_kept_refl
      | intros; first [ apply insert_client_kept
                      | apply update_unsubscribe_kept
                      | apply insert_newsletter_kept
                      | apply emails_kept_same; reflexivity ] ] ].

Lemma handle_keeps_emails env r : keeps world_kept (handle env r).
Proof.
  destruct r; simpl;
    unfold post_clients, get_clients, post_newsletters, get_newsletters,
           post_newsletters_send, get_stats, post_unsubscribe, world_kept.
  - keeps_emails. destruct a; keeps_emails.
  - keeps_emails.
  - keeps_emails.
  - keeps_emails.
  - keeps_emails. destruct a as [|newsletter rest]; keeps_emails.
    apply keeps_with_sentCount.
    eapply keeps_weaken; [|apply send_loop_frame].
    intros f f' (Hd & _). apply emails_kept_same. rewrite Hd. reflexivity.
  - keeps_emails.
  - keeps_emails.
Qed.

Lemma after_keeps_emails env r w : emails_kept (db w) (db (after env r w)).
Proof. apply (handle_keeps_emails env r w). Qed.

Lemma serve_keeps_emails env rs : forall w, emails_kept (db w) (db (serve env rs w)).
Proof.
  induction rs as [|r rs IH]; intro w; simpl.
  - apply emails_kept_refl.
  - eapply emails_kept_trans; [apply after_keeps_emails | apply IH].
Qed.

Lemma serve_app env rs1 rs2 w :
  serve env (rs1 ++ rs2) w = serve env rs2 (serve env rs1 w).
Proof. apply fold_left_app. Qed.

Lemma post_clients_new env e name company w :
  pool_fault env (statements w) = None ->
  ~ In e (emails (db w)) ->
  post_clients env (Some e) name company w =
  (Return (mkResponse 200
             (JClient "Klijent uspješno dodan"
                (mkClient (clients_id_seq (db w)) e name company true
                          (CURRENT_TIMESTAMP env (statements w))))),
   mkWorld (mkDb (clients (db w)
                  ++ [mkClient (clients_id_seq (db w)) e name company true
                               (CURRENT_TIMESTAMP env (statements w))])
                 (clients_id_seq (db w) + 1) (newsletters (db w))
                 (newsletters_id_seq (db w)))
           (S (statements w)) (outbox w) (console w)).
Proof.
  intros H N.
  unfold post_clients, try_catch, bind, pool_query, insert_client. rewrite H.
  destruct (existsb (has_email e) (clients (db w))) eqn:X; [|reflexivity].
  apply existsb_has_email in X. contradiction.
Qed.

Lemma post_clients_again env e name company w :
  pool_fault env (statements w) = None ->
  In e (emails (db w)) ->
  post_clients env (Some e) name company w =
  (Return (mkResponse 409 (JError "Email već postoji")),
   mkWorld (mkDb (clients (db w)) (clients_id_seq (db w) + 1) (newsletters (db w))
                 (newsletters_id_seq (db w)))
           (S (statements w)) (outbox w) (console w)).
Proof.
  intros H I.
  unfold post_clients, try_catch, bind, pool_query, insert_client. rewrite H.
  apply existsb_has_email in I. unfold emails in I. rewrite I. reflexivity.
Qed.

Lemma one_row_per_email e cs :
  NoDup (map c_email cs) -> In e (map c_email cs) ->
  List.length (filter (has_email e) cs) = 1.
Proof.
  induction cs as [|c cs IH]; simpl; intros U I; [contradiction|].
  inversion U as [|x l Nx Ul]; subst.
  unfold has_email at 1. destruct (String.eqb_spec (c_email c) e) as [E|E].
  - simpl. f_equal. rewrite E in Nx.
    rewrite filter_none; [reflexivity|].
    intros x Hx. unfold has_email. apply String.eqb_neq. intro Ex.
    apply Nx. rewrite <- Ex. apply in_map. exact Hx.
  - destruct I as [I|I]; [contradiction|]. apply IH; assumption.
Qed.

Lemma rows_with_email_nil e d : rows_with_email e d = [] <-> ~ In e (emails d).
Proof.
  unfold rows_with_email, emails. rewrite <- existsb_has_email.
  induction (clients d) as [|c cs IH]; simpl.
  - split; [discriminate | reflexivity].
  - destruct (has_email e c); simpl.
    + split; [discriminate | intro H; exfalso; apply H; reflexivity].
    + exact IH.
Qed.

(** C3: the table starts with unique emails and every request keeps them
    unique; creating a client with an email no row has answers 200 with the
    row it appended; creating one with an email some row has answers 409 and
    leaves the rows as they were; and once a creation with email [e] was
    served among any requests, exactly one row has email [e]. *)
Theorem client_email_unique :
  emails_unique empty_db
  /\ (forall env r w, emails_unique (db w) -> emails_unique (db (after env r w)))
  /\ (forall env e name company w,
        pool_fault env (statements w) = None ->
        rows_with_email e (db w) = [] ->
        exists row w',
          post_clients env (Some e) name company w =
          (Return (mkResponse 200 (JClient "Klijent uspješno dodan" row)), w')
          /\ c_email row = e /\ c_name row = name /\ c_company row = company
          /\ c_subscribed row = true
          /\ clients (db w') = clients (db w) ++ [row]
          /\ rows_with_email e (db w') = [row])
  /\ (forall env e name company w,
        pool_fault env (statements w) = None ->
        rows_with_email e (db w) <> [] ->
        exists w',
          post_clients env (Some e) name company w =
          (Return (mkResponse 409 (JError "Email već postoji")), w')
          /\ clients (db w') = clients (db w))
  /\ (forall env e rs w,
        (forall k, pool_fault env k = None) ->
        emails_unique (db w) ->
        (exists name company, In (PostClients (Some e) name company) rs) ->
        List.length (rows_with_email e (db (serve env rs w))) = 1).
Proof.
  split; [constructor|].
  split; [intros env r w; apply after_keeps_emails|].
  split; [|split].
  - intros env e name company w H N.
    pose proof N as N'. apply rows_with_email_nil in N'.
    rewrite (post_clients_new _ _ _ _ _ H N').
    do 2 eexists. split; [reflexivity|]. simpl. repeat split.
    unfold rows_with_email in *. simpl. rewrite filter_app, N. simpl.
    unfold has_email. simpl. rewrite String.eqb_refl. reflexivity.
  - intros env e name company w H N.
    assert (I : In e (emails (db w))).
    { destruct (in_dec string_dec e (emails (db w))) as [I|I]; [exact I|].
      apply rows_with_email_nil in I. contradiction. }
    rewrite (post_clients_again _ _ _ _ _ H I).
    eexists. split; reflexivity.
  - intros env e rs w H U (name & company & I).
    destruct (in_split _ _ I) as (rs1 & rs2 & ->).
    rewrite serve_app. simpl.
    set (w1 := serve env rs1 w).
    assert (U1 : emails_unique (db w1)) by (apply (serve_keeps_emails env rs1 w); exact U).
    set (w2 := after env (PostClients (Some e) name company) w1).
    assert (U2 : emails_unique (db w2)) by (apply (after_keeps_emails env _ w1); exact U1).
    assert (I2 : In e (emails (db w2))).
    { unfold w2, after. simpl.
      destruct (in_dec string_dec e (emails (db w1))) as [J|J].
      - rewrite (post_clients_again _ _ _ _ _ (H _) J). exact J.
      - rewrite (post_clients_new _ _ _ _ _ (H _) J). unfold emails. simpl.
        rewrite map_app. apply in_app_iff. right. left. reflexivity. }
    destruct (serve_keeps_emails env rs2 w2) as [K1 K2].
    apply one_row_per_email; [apply K1; exact U2 | apply K2; exact I2].
Qed.

(** Three creations with one email leave one row. *)
Lemma client_email_unique_witness :
  List.length
    (rows_with_email "a@example.com"
       (db (serve no_credentials
              [subscribe "a@example.com"; subscribe "b@example.com";
               subscribe "a@example.com"; subscribe "a@example.com"]
              initial_world))) = 1.
Proof.
  destruct client_email_unique as (U0 & _ & _ & _ & H).
  apply H.
  - intro k. reflexivity.
  - exact U0.
  - exists None, None. left. reflexivity.
Defined.

(** ** Unsubscribing *)

Lemma post_unsubscribe_ok env email w :
  pool_fault env (statements w) = None ->
  post_unsubscribe env email w =
  (Return (mkResponse 200 (JMessage "Pretplata uspješno otkazana")),
   mkWorld (mkDb (map (unsubscribe_row email) (clients (db w))) (clients_id_seq (db w))
                 (newsletters (db w)) (newsletters_id_seq (db w)))
           (S (statements w)) (outbox w) (console w)).
Proof.
  intro H. unfold post_unsubscribe, try_catch, bind, pool_query. rewrite H. reflexivity.
Qed.

Lemma post_unsubscribe_fault env email w msg :
  pool_fault env (statements w) = Some msg ->
  post_unsubscribe env email w =
  (Return (mkResponse 500 (JError msg)),
   mkWorld (db w) (S (statements w)) (outbox w) (console w)).
Proof.
  intro H. unfold post_unsubscribe, try_catch, bind, pool_query. rewrite H. reflexivity.
Qed.

Lemma unsubscribe_row_twice email c :
  unsubscribe_row email (unsubscribe_row email c) = unsubscribe_row email c.
Proof.
  unfold unsubscribe_row. destruct email as [e|]; [|reflexivity].
  destruct (has_email e c) eqn:E; [|rewrite E; reflexivity].
  unfold has_email in *. simpl. rewrite E. reflexivity.
Qed.

Lemma unsubscribe_row_email email c : c_email (unsubscribe_row email c) = c_email c.
Proof.
  unfold unsubscribe_row. destruct email as [e|]; [|reflexivity].
  destruct (has_email e c); reflexivity.
Qed.

Lemma unsubscribe_row_other email c :
  Some (c_email c) <> email -> unsubscribe_row email c = c.
Proof.
  intro N. unfold unsubscribe_row. destruct email as [e|]; [|reflexivity].
  unfold has_email. destruct (String.eqb_spec (c_email c) e) as [E|E]; [|reflexivity].
  subst e. contradiction.
Qed.

Lemma unsubscribe_row_match e c :
  c_email c = e -> unsubscribe_row (Some e) c = set_subscribed false c.
Proof.
  intro E. unfold unsubscribe_row, has_email. rewrite E, String.eqb_refl. reflexivity.
Qed.

Lemma db_eta d :
  mkDb (clients d) (clients_id_seq d) (newsletters d) (newsletters_id_seq d) = d.
Proof. destruct d; reflexivity. Qed.

(** C4: an unsubscribe the database accepts answers 200; afterwards every
    row with the given email has subscribed = false, each such row being
    the old one with only that flag cleared; a second unsubscribe leaves
    the tables as the first left them; and when no row has the email the
    tables are as before. *)
Theorem unsubscribe_idempotent env email w :
  pool_fault env (statements w) = None ->
  fst (post_unsubscribe env email w)
  = Return (mkResponse 200 (JMessage "Pretplata uspješno otkazana"))
  /\ clients (db (after env (PostUnsubscribe email) w))
     = map (unsubscribe_row email) (clients (db w))
  /\ (forall c, In c (clients (db w)) -> Some (c_email c) = email ->
        In (set_subscribed false c) (clients (db (after env (PostUnsubscribe email) w))))
  /\ (forall c', In c' (clients (db (after env (PostUnsubscribe email) w))) ->
        Some (c_email c') = email -> c_subscribed c' = false)
  /\ db (after env (PostUnsubscribe email) (after env (PostUnsubscribe email) w))
     = db (after env (PostUnsubscribe email) w)
  /\ ((forall c, In c (clients (db w)) -> Some (c_email c) <> email) ->
        db (after env (PostUnsubscribe email) w) = db w).
Proof.
  intro H.
  assert (E : after env (PostUnsubscribe email) w
              = mkWorld (mkDb (map (unsubscribe_row email) (clients (db w)))
                              (clients_id_seq (db w)) (newsletters (db w))
                              (newsletters_id_seq (db w)))
                        (S (statements w)) (outbox w) (console w)).
  { unfold after. simpl handle. rewrite (post_unsubscribe_ok _ _ _ H). reflexivity. }
  rewrite E, (post_unsubscribe_ok _ _ _ H). simpl.
  split; [reflexivity|]. split; [reflexivity|]. split; [|split; [|split]].
  - intros c I <-. rewrite <- (unsubscribe_row_match (c_email c) c eq_refl).
    apply in_map. exact I.
  - intros c' I X. apply in_map_iff in I. destruct I as (c & <- & I).
    rewrite unsubscribe_row_email in X. subst email.
    rewrite (unsubscribe_row_match (c_email c) c eq_refl). reflexivity.
  - unfold after. simpl handle.
    set (w1 := mkWorld _ _ _ _).
    destruct (pool_fault env (statements w1)) as [msg|] eqn:H2.
    + rewrite (post_unsubscribe_fault _ _ _ _ H2). reflexivity.
    + rewrite (post_unsubscribe_ok _ _ _ H2). unfold w1. simpl.
      rewrite map_map. f_equal. apply map_ext. intro c. apply unsubscribe_row_twice.
  - intro N. rewrite (map_ext_in (unsubscribe_row email) (fun c => c)).
    + rewrite map_id. apply db_eta.
    + intros c I. apply unsubscribe_row_other, N, I.
Qed.

(** Unsubscribing the first of two subscribers. *)
Lemma unsubscribe_idempotent_witness :
  map c_subscribed
      (clients (db (after no_credentials (PostUnsubscribe (Some "a@example.com"))
                          two_subscribers))) = [false; true]
  /\ db (after no_credentials (PostUnsubscribe (Some "a@example.com"))
               (after no_credentials (PostUnsubscribe (Some "a@example.com"))
                      two_subscribers))
     = db (after no_credentials (PostUnsubscribe (Some "a@example.com")) two_subscribers)
  /\ db (after no_credentials (PostUnsubscribe (Some "z@example.com")) two_subscribers)
     = db two_subscribers.
Proof.
  destruct (unsubscribe_idempotent no_credentials (Some "a@example.com") two_subscribers
              eq_refl) as (_ & C & _ & _ & I & _).
  split; [rewrite C; reflexivity|]. split; [exact I|]. reflexivity.
Defined.

Lemma Forall2_map_r {A B} (P : A -> B -> Prop) (f : A -> B) (l : list A) :
  (forall a, P a (f a)) -> Forall2 P l (map f l).
Proof. intro H. induction l; simpl; constructor; auto. Qed.

(** C10: an unsubscribe, whatever the database answers, leaves the
    newsletter rows, both sequences and the outbox as they were, and the
    client rows one for one: each keeps id, email, name, company and
    created_at, and a row whose email is not the given one stays equal. *)
Theorem unsubscribe_frame env email w :
  newsletters (db (after env (PostUnsubscribe email) w)) = newsletters (db w)
  /\ clients_id_seq (db (after env (PostUnsubscribe email) w)) = clients_id_seq (db w)
  /\ newsletters_id_seq (db (after env (PostUnsubscribe email) w))
     = newsletters_id_seq (db w)
  /\ outbox (after env (PostUnsubscribe email) w) = outbox w
  /\ Forall2 (row_kept email) (clients (db w))
             (clients (db (after env (PostUnsubscribe email) w))).
Proof.
  unfold after. simpl handle.
  destruct (pool_fault env (statements w)) as [msg|] eqn:H.
  - rewrite (post_unsubscribe_fault _ _ _ _ H). simpl. repeat split.
    rewrite <- (map_id (clients (db w))) at 2.
    apply Forall2_map_r. intro c. unfold row_kept. repeat split.
  - rewrite (post_unsubscribe_ok _ _ _ H). simpl. repeat split.
    apply Forall2_map_r. intro c. unfold row_kept.
    rewrite unsubscribe_row_email. repeat split;
      try (unfold unsubscribe_row; destruct email as [e|]; [|reflexivity];
           destruct (has_email e c); reflexivity).
    apply unsubscribe_row_other.
Qed.

(** The second subscriber and the newsletter are untouched when the first
    unsubscribes. *)
Lemma unsubscribe_frame_witness :
  newsletters (db (after no_credentials (PostUnsubscribe (Some "a@example.com"))
                         two_subscribers))
  = newsletters (db two_subscribers)
  /\ Forall2 (row_kept (Some "a@example.com")) (clients (db two_subscribers))
             (clients (db (after no_credentials (PostUnsubscribe (Some "a@example.com"))
                                 two_subscribers))).
Proof.
  destruct (unsubscribe_frame no_credentials (Some "a@example.com") two_subscribers)
    as (N & _ & _ & _ & F).
  split; [exact N | exact F].
Defined.

(** ** Creating a client without an email *)

(** C9: with no email in the body the handler validates nothing: the
    INSERT reaches the database, its NOT NULL refusal comes back as a 500
    carrying the engine's message, not as a 400, and no row is added. *)
Theorem post_clients_without_email env name company w :
  pool_fault env (statements w) = None ->
  exists w',
    post_clients env None name company w =
    (Return (mkResponse 500 (JError (message (not_null_violation "email" "clients")))), w')
    /\ status (mkResponse 500 (JError (message (not_null_violation "email" "clients"))))
       <> 400
    /\ clients (db w') = clients (db w)
    /\ console w' = console w ++ [Error [Text "Error adding client:";
                                         Err (not_null_violation "email" "clients")]].
Proof.
  intro H. unfold post_clients, try_catch, bind, pool_query, insert_client. rewrite H.
  eexists. split; [reflexivity|]. simpl. repeat split. discriminate.
Qed.

Lemma post_clients_without_email_witness :
  exists w',
    post_clients no_credentials None (Some "Ana") None two_subscribers =
    (Return (mkResponse 500 (JError (message (not_null_violation "email" "clients")))), w')
    /\ clients (db w') = clients (db two_subscribers).
Proof.
  destruct (post_clients_without_email no_credentials (Some "Ana") None two_subscribers
              eq_refl) as (w' & E & _ & C & _).
  exists w'. split; [exact E | exact C].
Defined.

(** ** Sending what cannot be read *)

Lemma filter_has_id_nil id ns :
  (forall n, In n ns -> n_id n <> id) -> filter (has_id id) ns = [].
Proof.
  intro H. apply filter_none. intros n I. unfold has_id.
  apply Z.eqb_neq. apply H. exact I.
Qed.

Lemma filter_has_id_cons id ns :
  (exists n, In n ns /\ n_id n = id) ->
  exists newsletter rest, filter (has_id id) ns = newsletter :: rest.
Proof.
  intros (n & I & E).
  destruct (filter (has_id id) ns) as [|x rest] eqn:F; [|eauto].
  assert (J : In n (filter (has_id id) ns)).
  { apply filter_In. split; [exact I|]. unfold has_id. apply Z.eqb_eq. exact E. }
  rewrite F in J. contradiction.
Qed.

(** C5: a send for an id no newsletter row has answers 404; a send whose
    SELECT of the newsletter fails, or whose SELECT of the subscribers
    fails, answers 500 with the failure's message; in all three cases the
    tables and the outbox are as before: nothing was sent or written. *)
Theorem send_unknown_or_unreadable env id origin w :
  (pool_fault env (statements w) = None ->
   (forall n, In n (newsletters (db w)) -> n_id n <> id) ->
   fst (post_newsletters_send env id origin w)
   = Return (mkResponse 404 (JError "Newsletter nije pronađen"))
   /\ db (snd (post_newsletters_send env id origin w)) = db w
   /\ outbox (snd (post_newsletters_send env id origin w)) = outbox w)
  /\ (forall msg,
        pool_fault env (statements w) = Some msg ->
        fst (post_newsletters_send env id origin w)
        = Return (mkResponse 500 (JError msg))
        /\ db (snd (post_newsletters_send env id origin w)) = db w
        /\ outbox (snd (post_newsletters_send env id origin w)) = outbox w)
  /\ (forall msg,
        pool_fault env (statements w) = None ->
        (exists n, In n (newsletters (db w)) /\ n_id n = id) ->
        pool_fault env (S (statements w)) = Some msg ->
        fst (post_newsletters_send env id origin w)
        = Return (mkResponse 500 (JError msg))
        /\ db (snd (post_newsletters_send env id origin w)) = db w
        /\ outbox (snd (post_newsletters_send env id origin w)) = outbox w).
Proof.
  split; [|split].
  - intros H N.
    rewrite (send_not_found _ _ _ _ H (filter_has_id_nil _ _ N)). repeat split.
  - intros msg H. rewrite (send_first_fault _ _ _ _ _ H). repeat split.
  - intros msg H X H2. destruct (filter_has_id_cons _ _ X) as (n & rest & F).
    rewrite (send_second_fault _ _ _ _ _ _ _ H F H2). repeat split.
Qed.

Lemma send_unknown_or_unreadable_witness :
  (fst (post_newsletters_send no_credentials 7 None two_subscribers)
   = Return (mkResponse 404 (JError "Newsletter nije pronađen"))
   /\ db (snd (post_newsletters_send no_credentials 7 None two_subscribers))
      = db two_subscribers)
  /\ (fst (post_newsletters_send subscribers_unreadable 1 None two_subscribers)
      = Return (mkResponse 500 (JError "Connection terminated unexpectedly"))
      /\ db (snd (post_newsletters_send subscribers_unreadable 1 None two_subscribers))
         = db two_subscribers).
Proof.
  split.
  - destruct (send_unknown_or_unreadable no_credentials 7 None two_subscribers)
      as (H & _ & _).
    destruct H as (R & D & _).
    + reflexivity.
    + intros n [<-|[]]. discriminate.
    + split; [exact R | exact D].
  - destruct (send_unknown_or_unreadable subscribers_unreadable 1 None two_subscribers)
      as (_ & _ & H).
    destruct (H "Connection terminated unexpectedly") as (R & D & _).
    + reflexivity.
    + eexists. split; [left; reflexivity | reflexivity].
    + reflexivity.
    + split; [exact R | exact D].
Defined.

(** ** The test-mode flag *)

(** C6: a send is meant to report testMode = true exactly when no
    credentials are configured.  No answer of the handler carries the flag:
    every answer is an error body, 404 or 500, since line 158 is never
    reached; with no credentials, five subscribers and newsletter 1 in
    place the answer is the 500 of the transporter.  The provider is not
    called, with or without credentials. *)
Theorem send_never_reports_test_mode :
  (forall env id origin w,
      (exists code e,
          fst (post_newsletters_send env id origin w)
          = Return (mkResponse code (JError e)))
      /\ outbox (snd (post_newsletters_send env id origin w)) = outbox w)
  /\ EMAIL_USER no_credentials = None
  /\ fst (post_newsletters_send no_credentials 1 None five_subscribers)
     = Return (mkResponse 500
                 (JError "nodemailer.createTransporter is not a function")).
Proof.
  split; [|split; reflexivity].
  intros env id origin w.
  destruct (send_outcome env id origin w) as (_ & O & [(e & R) | R]).
  - split; [|exact O]. exists 500, e. exact R.
  - split; [|exact O]. eexists _, _. exact R.
Qed.

(** ** sent_count after a send *)

(** C7: a send is meant to overwrite sent_count with its tally.  The
    handler never reaches its UPDATE: whatever the request, the newsletter
    rows after a send are the rows before it; and after two sends in a row
    for newsletter 1 with five subscribers, one without and one with
    credentials, both answered 500, sent_count is still 0. *)
Theorem send_never_stores_a_count :
  (forall env id origin w,
      newsletters (db (snd (post_newsletters_send env id origin w)))
      = newsletters (db w))
  /\ fst (post_newsletters_send no_credentials 1 None five_subscribers)
     = Return (mkResponse 500
                 (JError "nodemailer.createTransporter is not a function"))
  /\ fst (post_newsletters_send all_delivered 1 None
             (snd (post_newsletters_send no_credentials 1 None five_subscribers)))
     = Return (mkResponse 500
                 (JError "nodemailer.createTransporter is not a function"))
  /\ map n_sent_count
         (newsletters
            (db (snd (post_newsletters_send all_delivered 1 None
                        (snd (post_newsletters_send no_credentials 1 None
                                five_subscribers)))))) = [0%Z].
Proof.
  split; [|split; [|split]]; try reflexivity.
  intros env id origin w.
  destruct (send_outcome env id origin w) as (D & _). rewrite D. reflexivity.
Qed.

Lemma store_sent_count_id count id n : n_id (store_sent_count count id n) = n_id n.
Proof. unfold store_sent_count. destruct (has_id id n); reflexivity. Qed.

(** ** Newlines in the message *)






(** * Beyond the send campaign *)

(** ** Start-up *)

Lemma initializeDatabase_healthy env b :
  pool_fault env (boot_statements b) = None ->
  pool_fault env (S (boot_statements b)) = None ->
  initializeDatabase env b =
  (Return tt,
   mkBoot (create_newsletters (create_clients (catalog b))) (S (S (boot_statements b)))
          (boot_console b ++ [Log [Text "✅ Database initialized successfully"]])).
Proof.
  intros H1 H2. unfold initializeDatabase, try_catch, bind, boot_query. simpl.
  rewrite H1. simpl. rewrite H2. reflexivity.
Qed.

Lemma create_twice c :
  create_newsletters (create_clients (create_newsletters (create_clients c)))
  = create_newsletters (create_clients c).
Proof.
  destruct c as [[cs|] [ns|]]; reflexivity.
Qed.

(** X1: on a database that accepts both CREATE TABLE statements, start-up
    leaves both tables in place; a table that existed keeps its rows and
    its sequence, a missing one starts empty with its sequence at 1 (so a
    fresh database becomes [empty_db]); and a second start-up changes
    nothing. *)
Theorem initializeDatabase_creates_once env b :
  pool_fault env (boot_statements b) = None ->
  pool_fault env (S (boot_statements b)) = None ->
  fst (initializeDatabase env b) = Return tt
  /\ (exists d, tables (catalog (snd (initializeDatabase env b))) = Some d)
  /\ (forall rows, clients_table (catalog b) = Some rows ->
        clients_table (catalog (snd (initializeDatabase env b))) = Some rows)
  /\ (forall rows, newsletters_table (catalog b) = Some rows ->
        newsletters_table (catalog (snd (initializeDatabase env b))) = Some rows)
  /\ (clients_table (catalog b) = None ->
        clients_table (catalog (snd (initializeDatabase env b))) = Some ([], 1%Z))
  /\ (newsletters_table (catalog b) = None ->
        newsletters_table (catalog (snd (initializeDatabase env b))) = Some ([], 1%Z))
  /\ (catalog b = empty_catalog ->
        tables (catalog (snd (initializeDatabase env b))) = Some empty_db)
  /\ (pool_fault env (S (S (boot_statements b))) = None ->
      pool_fault env (S (S (S (boot_statements b)))) = None ->
      catalog (snd (initializeDatabase env (snd (initializeDatabase env b))))
      = catalog (snd (initializeDatabase env b))).
Proof.
  intros H1 H2. rewrite (initializeDatabase_healthy _ _ H1 H2).
  cbn [fst snd catalog].
  split; [reflexivity|].
  split; [destruct (catalog b) as [[[cs cq]|] [[ns nq]|]]; eexists; reflexivity|].
  split; [intros rows E; destruct (catalog b) as [ct [nt|]]; simpl in *; subst;
          reflexivity|].
  split; [intros rows E; destruct (catalog b) as [[ct|] nt]; simpl in *; subst;
          reflexivity|].
  split; [intros E; destruct (catalog b) as [ct [nt|]]; simpl in *; subst;
          reflexivity|].
  split; [intros E; destruct (catalog b) as [[ct|] nt]; simpl in *; subst;
          reflexivity|].
  split; [intros ->; reflexivity|].
  intros H3 H4.
  rewrite (initializeDatabase_healthy env (mkBoot _ _ _) H3 H4).
  cbn [snd catalog]. apply create_twice.
Qed.

Lemma initializeDatabase_creates_once_witness :
  tables (catalog (snd (initializeDatabase no_credentials (boot empty_catalog))))
  = Some empty_db
  /\ clients_table (catalog (snd (initializeDatabase no_credentials (boot clients_only))))
     = clients_table clients_only.
Proof.
  destruct (initializeDatabase_creates_once no_credentials (boot empty_catalog)
              eq_refl eq_refl) as (_ & _ & _ & _ & _ & _ & E & _).
  destruct (initializeDatabase_creates_once no_credentials (boot clients_only)
              eq_refl eq_refl) as (_ & _ & K & _).
  split; [apply E; reflexivity | apply K; reflexivity].
Defined.

(** X2: start-up never throws, whatever the database answers.  When the
    first CREATE TABLE is refused the second is not issued and the catalog
    is as before; when only the second is refused the clients table is
    created and the newsletters table is not; either way the refusal is
    written to the console and nothing else happens. *)
Theorem initializeDatabase_swallows_failure env b :
  fst (initializeDatabase env b) = Return tt
  /\ (forall msg,
        pool_fault env (boot_statements b) = Some msg ->
        snd (initializeDatabase env b)
        = mkBoot (catalog b) (S (boot_statements b))
                 (boot_console b
                  ++ [Error [Text "❌ Database initialization error:";
                             Err (DatabaseError msg)]]))
  /\ (forall msg,
        pool_fault env (boot_statements b) = None ->
        pool_fault env (S (boot_statements b)) = Some msg ->
        snd (initializeDatabase env b)
        = mkBoot (create_clients (catalog b)) (S (S (boot_statements b)))
                 (boot_console b
                  ++ [Error [Text "❌ Database initialization error:";
                             Err (DatabaseError msg)]])).
Proof.
  unfold initializeDatabase, try_catch, bind, boot_query. simpl.
  destruct (pool_fault env (boot_statements b)) as [m1|] eqn:H1; simpl.
  - split; [reflexivity|]. split; [|discriminate].
    intros msg [= <-]. reflexivity.
  - destruct (pool_fault env (S (boot_statements b))) as [m2|] eqn:H2; simpl.
    + split; [reflexivity|]. split; [discriminate|].
      intros msg _ [= <-]. reflexivity.
    + split; [reflexivity|]. split; discriminate.
Qed.

Lemma initializeDatabase_swallows_failure_witness :
  tables (catalog (snd (initializeDatabase (refusing 1) (boot empty_catalog)))) = None
  /\ clients_table (catalog (snd (initializeDatabase (refusing 1) (boot empty_catalog))))
     = Some ([], 1%Z)
  /\ catalog (snd (initializeDatabase (refusing 0) (boot empty_catalog))) = empty_catalog.
Proof.
  destruct (initializeDatabase_swallows_failure (refusing 1) (boot empty_catalog))
    as (_ & _ & S2).
  destruct (initializeDatabase_swallows_failure (refusing 0) (boot empty_catalog))
    as (_ & S1 & _).
  rewrite (S2 _ eq_refl eq_refl), (S1 _ eq_refl). repeat split.
Defined.

(** ** Listings *)

Lemma insert_desc_perm {A} (key : A -> Z) (x : A) (l : list A) :
  Permutation (insert_desc key x l) (x :: l).
Proof.
  induction l as [|y l IH]; simpl; [reflexivity|].
  destruct (key y <? key x)%Z; [reflexivity|].
  rewrite IH. apply perm_swap.
Qed.

Lemma order_by_desc_perm {A} (key : A -> Z) (l : list A) :
  Permutation (order_by_desc key l) l.
Proof.
  unfold order_by_desc. induction l as [|x l IH]; simpl; [reflexivity|].
  rewrite insert_desc_perm. constructor. exact IH.
Qed.

Lemma insert_desc_sorted {A} (key : A -> Z) (x : A) (l : list A) :
  newest_first key l -> newest_first key (insert_desc key x l).
Proof.
  unfold newest_first. induction l as [|y l IH]; simpl; intro Hs.
  - repeat constructor.
  - inversion Hs as [|y' l' Hl Hy]; subst.
    destruct (Z.ltb_spec (key y) (key x)) as [L|L].
    + constructor; [exact Hs|]. constructor; [lia|].
      eapply Forall_impl; [|exact Hy]. simpl. intros z Hz. lia.
    + constructor; [apply IH; exact Hl|].
      eapply Permutation_Forall; [symmetry; apply insert_desc_perm|].
      constructor; [lia | exact Hy].
Qed.

Lemma order_by_desc_sorted {A} (key : A -> Z) (l : list A) :
  newest_first key (order_by_desc key l).
Proof.
  unfold order_by_desc. induction l as [|x l IH]; simpl.
  - constructor.
  - apply insert_desc_sorted. exact IH.
Qed.

(** X3: listing the clients changes nothing (tables, outbox, console),
    whatever the database answers; a refused SELECT is answered 500 with
    its message; an accepted one is answered 200 with every client row
    exactly once, newest creation first. *)
Theorem get_clients_newest_first env w :
  db (snd (get_clients env w)) = db w
  /\ outbox (snd (get_clients env w)) = outbox w
  /\ console (snd (get_clients env w)) = console w
  /\ (forall msg, pool_fault env (statements w) = Some msg ->
        fst (get_clients env w) = Return (mkResponse 500 (JError msg)))
  /\ (pool_fault env (statements w) = None ->
        exists rows,
          fst (get_clients env w) = Return (mkResponse 200 (JClients rows))
          /\ Permutation rows (clients (db w))
          /\ newest_first c_created_at rows).
Proof.
  unfold get_clients, try_catch, bind, pool_query, select_clients.
  destruct (pool_fault env (statements w)) as [m|]; simpl.
  - repeat split; [|discriminate]. intros msg [= <-]. reflexivity.
  - repeat split; [discriminate|]. intros _.
    eexists. split; [reflexivity|]. split.
    + apply order_by_desc_perm.
    + apply order_by_desc_sorted.
Qed.

(** X4: listing the newsletters changes nothing, whatever the database
    answers; a refused SELECT is answered 500 with its message; an accepted
    one is answered 200 with every newsletter row exactly once, newest
    creation first. *)
Theorem get_newsletters_newest_first env w :
  db (snd (get_newsletters env w)) = db w
  /\ outbox (snd (get_newsletters env w)) = outbox w
  /\ console (snd (get_newsletters env w)) = console w
  /\ (forall msg, pool_fault env (statements w) = Some msg ->
        fst (get_newsletters env w) = Return (mkResponse 500 (JError msg)))
  /\ (pool_fault env (statements w) = None ->
        exists rows,
          fst (get_newsletters env w) = Return (mkResponse 200 (JNewsletters rows))
          /\ Permutation rows (newsletters (db w))
          /\ newest_first n_created_at rows).
Proof.
  unfold get_newsletters, try_catch, bind, pool_query, select_newsletters.
  destruct (pool_fault env (statements w)) as [m|]; simpl.
  - repeat split; [|discriminate]. intros msg [= <-]. reflexivity.
  - repeat split; [discriminate|]. intros _.
    eexists. split; [reflexivity|]. split.
    + apply order_by_desc_perm.
    + apply order_by_desc_sorted.
Qed.

(** ** Statistics *)



(** ** More on sending *)

Lemma Forall2_same {A} (P : A -> A -> Prop) (l : list A) :
  (forall a, P a a) -> Forall2 P l l.
Proof. intro H. induction l; constructor; auto. Qed.

(** X6: a send for an existing newsletter whose two SELECTs the database
    accepts answers 500 with the TypeError of calling
    nodemailer.createTransporter, with or without credentials and whoever
    is subscribed; it writes that error to the console, issues no third
    statement, and leaves the tables and the outbox as they were. *)
Theorem send_fails_at_the_transporter env id origin w :
  pool_fault env (statements w) = None ->
  pool_fault env (S (statements w)) = None ->
  (exists n, In n (newsletters (db w)) /\ n_id n = id) ->
  fst (post_newsletters_send env id origin w)
  = Return (mkResponse 500 (JError "nodemailer.createTransporter is not a function"))
  /\ db (snd (post_newsletters_send env id origin w)) = db w
  /\ outbox (snd (post_newsletters_send env id origin w)) = outbox w
  /\ statements (snd (post_newsletters_send env id origin w)) = S (S (statements w))
  /\ console (snd (post_newsletters_send env id origin w))
     = console w
       ++ [Error [Text "Error sending newsletter:";
                  Err (TypeError "nodemailer.createTransporter is not a function")]].
Proof.
  intros H1 H2 X. destruct (filter_has_id_cons _ _ X) as (n & rest & F).
  rewrite (send_transporter_fault _ _ _ _ _ _ H1 F H2). repeat split.
Qed.

Lemma send_fails_at_the_transporter_witness :
  fst (post_newsletters_send all_delivered 1 None two_subscribers)
  = Return (mkResponse 500 (JError "nodemailer.createTransporter is not a function"))
  /\ db (snd (post_newsletters_send all_delivered 1 None two_subscribers))
     = db two_subscribers
  /\ outbox (snd (post_newsletters_send all_delivered 1 None two_subscribers)) = [].
Proof.
  destruct (send_fails_at_the_transporter all_delivered 1 None two_subscribers
              eq_refl eq_refl) as (R & D & O & _).
  - eexists. split; [left; reflexivity | reflexivity].
  - split; [exact R|]. split; [exact D | exact O].
Defined.

(** X7: a send never answers 200: whatever the request, the credentials
    and the answers of the database, it answers 404 or 500 with an error
    body, and the tables and the outbox are as before. *)
Theorem send_is_read_only env id origin w :
  db (snd (post_newsletters_send env id origin w)) = db w
  /\ outbox (snd (post_newsletters_send env id origin w)) = outbox w
  /\ exists code e,
      fst (post_newsletters_send env id origin w) = Return (mkResponse code (JError e))
      /\ (code = 404 \/ code = 500).
Proof.
  destruct (send_outcome env id origin w) as (D & O & [(e & R) | R]).
  - split; [exact D|]. split; [exact O|]. exists 500, e. split; [exact R | now right].
  - split; [exact D|]. split; [exact O|]. eexists _, _. split; [exact R | now left].
Qed.

(** X10: a send, however it ends, leaves the client rows and both
    sequences as they were, and the newsletter rows one for one: each keeps
    id, subject, content and created_at, and a row with another id stays
    equal. *)
Theorem send_frame env id origin w :
  clients (db (snd (post_newsletters_send env id origin w))) = clients (db w)
  /\ clients_id_seq (db (snd (post_newsletters_send env id origin w)))
     = clients_id_seq (db w)
  /\ newsletters_id_seq (db (snd (post_newsletters_send env id origin w)))
     = newsletters_id_seq (db w)
  /\ Forall2 (newsletter_kept id) (newsletters (db w))
             (newsletters (db (snd (post_newsletters_send env id origin w)))).
Proof.
  destruct (send_outcome env id origin w) as (D & _). rewrite D.
  repeat split. apply Forall2_same. intro n. unfold newsletter_kept. repeat split.
Qed.

(** ** Who reaches the provider *)

Lemma pool_query_outbox {A} env (stmt : Statement A) w :
  outbox (snd (pool_query env stmt w)) = outbox w
  /\ console (snd (pool_query env stmt w)) = console w.
Proof.
  unfold pool_query. destruct (pool_fault env (statements w)); [split; reflexivity|].
  destruct (stmt _ _) as [[e|a] d]; split; reflexivity.
Qed.

Lemma same_outbox_trans a b c : same_outbox a b -> same_outbox b c -> same_outbox a c.
Proof. unfold same_outbox. congruence. Qed.

Ltac keeps_outbox :=
  repeat first
    [ apply keeps_try_catch; [exact same_outbox_trans | | intro ]
    | apply keeps_bind; [exact same_outbox_trans | | intro ]
    | apply keeps_ret; reflexivity
    | (intro; reflexivity)
    | (intro; apply pool_query_outbox) ].

Lemma other_routes_outbox env r w :
  is_send r = false -> outbox (after env r w) = outbox w.
Proof.
  intro N. unfold after. revert w. change (keeps same_outbox (handle env r)).
  destruct r; try discriminate; simpl;
    unfold post_clients, get_clients, post_newsletters, get_newsletters,
           get_stats, post_unsubscribe.
  - keeps_outbox. destruct a; keeps_outbox.
  - keeps_outbox.
  - keeps_outbox.
  - keeps_outbox.
  - keeps_outbox.
  - keeps_outbox.
Qed.

Lemma after_outbox env r w :
  exists extra,
    outbox (after env r w) = outbox w ++ extra
    /\ (extra <> [] -> is_send r = true /\ falsy (EMAIL_USER env) = false)
    /\ incl (recipients extra) (map c_email (subscribers (db w))).
Proof.
  assert (O : outbox (after env r w) = outbox w).
  { destruct (is_send r) eqn:S.
    - destruct r; try discriminate. unfold after. simpl.
      apply (send_outcome env id origin w).
    - apply (other_routes_outbox env r w S). }
  exists []. rewrite O, app_nil_r.
  split; [reflexivity|]. split; [congruence | intros x []].
Qed.

(** X11: whatever the request and whatever the database and the provider
    answer, the deliveries made so far stay on record and new ones are
    only added by a send under a non-empty EMAIL_USER, and only to emails
    of clients that are subscribed when the request arrives. *)
Theorem only_live_sends_reach_the_provider env r w :
  exists extra,
    outbox (after env r w) = outbox w ++ extra
    /\ (extra <> [] -> is_send r = true /\ falsy (EMAIL_USER env) = false)
    /\ incl (recipients extra) (map c_email (subscribers (db w))).
Proof. exact (after_outbox env r w). Qed.

(** ** What every request keeps *)

(** A relation on tables that every statement of the handlers respects is
    respected by every request and by every list of requests. *)
Section EveryRequest.
Variable Rd : Db -> Db -> Prop.
Hypothesis Rd_refl : forall d, Rd d d.
Hypothesis Rd_trans : forall a b c, Rd a b -> Rd b c -> Rd a c.
Hypothesis Rd_insert_client :
  forall email name company now d, Rd d (snd (insert_client email name company now d)).
Hypothesis Rd_insert_newsletter :
  forall subject content now d, Rd d (snd (insert_newsletter subject content now d)).
Hypothesis Rd_update_sent_count :
  forall count id now d, Rd d (snd (update_sent_count count id now d)).
Hypothesis Rd_update_unsubscribe :
  forall email now d, Rd d (snd (update_unsubscribe email now d)).

Lemma on_db_refl w : on_db Rd w w.
Proof. apply Rd_refl. Qed.

Lemma on_db_trans a b c : on_db Rd a b -> on_db Rd b c -> on_db Rd a c.
Proof. apply Rd_trans. Qed.

Ltac keeps_rd :=
  repeat first
    [ apply keeps_try_catch; [exact on_db_trans | | intro ]
    | apply keeps_bind; [exact on_db_trans | | intro ]
    | apply keeps_ret; exact on_db_refl
    | apply keeps_createTransporter; exact on_db_refl
    | apply keeps_console_error; exact Rd_refl
    | apply keeps_pool_query;
      [ exact Rd_refl
      | intros; first [ apply Rd_insert_client
                      | apply Rd_insert_newsletter
                      | apply Rd_update_sent_count
                      | apply Rd_update_unsubscribe
                      | apply Rd_refl ] ] ].

Lemma handle_keeps_db env r : keeps (on_db Rd) (handle env r).
Proof.
  destruct r; simpl;
    unfold post_clients, get_clients, post_newsletters, get_newsletters,
           post_newsletters_send, get_stats, post_unsubscribe.
  - keeps_rd. destruct a; keeps_rd.
  - keeps_rd.
  - keeps_rd.
  - keeps_rd.
  - keeps_rd. destruct a as [|newsletter rest]; keeps_rd.
    apply keeps_with_sentCount.
    eapply keeps_weaken; [|apply send_loop_frame].
    intros f f' (Hd & _). unfold on_db. rewrite Hd. apply Rd_refl.
  - keeps_rd.
  - keeps_rd.
Qed.

Lemma after_keeps_db env r w : Rd (db w) (db (after env r w)).
Proof. apply (handle_keeps_db env r w). Qed.

Lemma serve_keeps_db env rs : forall w, Rd (db w) (db (serve env rs w)).
Proof.
  induction rs as [|r rs IH]; intro w; simpl.
  - apply Rd_refl.
  - eapply Rd_trans; [apply after_keeps_db | apply IH].
Qed.
End EveryRequest.

(** *** Rows are never deleted *)

Lemma rows_evolve_refl {A} (ev : A -> A -> Prop) (rows : list A) :
  (forall a, ev a a) -> rows_evolve ev rows rows.
Proof.
  intro H. exists rows, []. rewrite app_nil_r. split; [reflexivity|].
  apply Forall2_same. exact H.
Qed.

Lemma Forall2_chain {A} (ev : A -> A -> Prop) (l1 l2 l3 : list A) :
  (forall a b c, ev a b -> ev b c -> ev a c) ->
  Forall2 ev l1 l2 -> Forall2 ev l2 l3 -> Forall2 ev l1 l3.
Proof.
  intros T H. revert l3. induction H as [|a b l1 l2 Hab H IH]; intros l3 H3.
  - inversion H3. constructor.
  - inversion H3 as [|b' c l2' l3' Hbc H3']; subst. constructor; eauto.
Qed.

Lemma rows_evolve_trans {A} (ev : A -> A -> Prop) (r1 r2 r3 : list A) :
  (forall a b c, ev a b -> ev b c -> ev a c) ->
  rows_evolve ev r1 r2 -> rows_evolve ev r2 r3 -> rows_evolve ev r1 r3.
Proof.
  intros T (k1 & a1 & -> & F1) (k2 & a2 & -> & F2).
  apply Forall2_app_inv_l in F2. destruct F2 as (k2a & k2b & Fa & Fb & ->).
  exists k2a, (k2b ++ a2). rewrite app_assoc. split; [reflexivity|].
  eapply Forall2_chain; eauto.
Qed.

Lemma rows_evolve_map {A} (ev : A -> A -> Prop) (f : A -> A) (rows : list A) :
  (forall a, ev a (f a)) -> rows_evolve ev rows (map f rows).
Proof.
  intro H. exists (map f rows), []. rewrite app_nil_r. split; [reflexivity|].
  apply Forall2_map_r. exact H.
Qed.

Lemma rows_evolve_app {A} (ev : A -> A -> Prop) (rows added : list A) :
  (forall a, ev a a) -> rows_evolve ev rows (rows ++ added).
Proof.
  intro H. exists rows, added. split; [reflexivity|]. apply Forall2_same. exact H.
Qed.

Lemma client_evolves_refl c : client_evolves c c.
Proof. unfold client_evolves. repeat split. auto. Qed.

Lemma client_evolves_trans a b c :
  client_evolves a b -> client_evolves b c -> client_evolves a c.
Proof.
  unfold client_evolves.
  intros (A1 & A2 & A3 & A4 & A5 & A6) (B1 & B2 & B3 & B4 & B5 & B6).
  repeat split; try congruence. auto.
Qed.

Lemma newsletter_evolves_refl n : newsletter_evolves n n.
Proof. unfold newsletter_evolves. repeat split. Qed.

Lemma newsletter_evolves_trans a b c :
  newsletter_evolves a b -> newsletter_evolves b c -> newsletter_evolves a c.
Proof.
  unfold newsletter_evolves.
  intros (A1 & A2 & A3 & A4) (B1 & B2 & B3 & B4). repeat split; congruence.
Qed.

Lemma db_evolves_refl d : db_evolves d d.
Proof.
  split; apply rows_evolve_refl;
    [apply client_evolves_refl | apply newsletter_evolves_refl].
Qed.

Lemma db_evolves_trans a b c : db_evolves a b -> db_evolves b c -> db_evolves a c.
Proof.
  intros [C1 N1] [C2 N2]. split.
  - eapply rows_evolve_trans; eauto. apply client_evolves_trans.
  - eapply rows_evolve_trans; eauto. apply newsletter_evolves_trans.
Qed.

Lemma db_evolves_same d d' :
  clients d' = clients d -> newsletters d' = newsletters d -> db_evolves d d'.
Proof.
  intros C N. unfold db_evolves. rewrite C, N. apply db_evolves_refl.
Qed.

Lemma insert_client_evolves email name company now d :
  db_evolves d (snd (insert_client email name company now d)).
Proof.
  unfold insert_client.
  destruct email as [e|]; [|apply db_evolves_same; reflexivity].
  destruct (existsb (has_email e) (clients d)); [apply db_evolves_same; reflexivity|].
  split; simpl.
  - apply rows_evolve_app, client_evolves_refl.
  - apply rows_evolve_refl, newsletter_evolves_refl.
Qed.

Lemma insert_newsletter_evolves subject content now d :
  db_evolves d (snd (insert_newsletter subject content now d)).
Proof.
  unfold insert_newsletter.
  destruct subject, content; try (apply db_evolves_same; reflexivity).
  split; simpl.
  - apply rows_evolve_refl, client_evolves_refl.
  - apply rows_evolve_app, newsletter_evolves_refl.
Qed.

Lemma update_sent_count_evolves count id now d :
  db_evolves d (snd (update_sent_count count id now d)).
Proof.
  split; simpl.
  - apply rows_evolve_refl, client_evolves_refl.
  - apply rows_evolve_map. intro n. unfold newsletter_evolves, store_sent_count.
    destruct (has_id id n); repeat split.
Qed.

Lemma update_unsubscribe_evolves email now d :
  db_evolves d (snd (update_unsubscribe email now d)).
Proof.
  split; simpl.
  - apply rows_evolve_map. intro c. unfold client_evolves, unsubscribe_row.
    destruct email as [e|]; [|repeat split; auto].
    destruct (has_email e c); repeat split; auto. simpl. discriminate.
  - apply rows_evolve_refl, newsletter_evolves_refl.
Qed.

Lemma rows_evolve_survive {A} (ev : A -> A -> Prop) (rows rows' : list A) :
  rows_evolve ev rows rows' -> rows_survive ev rows rows'.
Proof.
  intros (kept & added & -> & F). exists kept, added. split; [reflexivity | exact F].
Qed.

(** X12: over any list of requests, and whatever the database and the
    provider answer, no row of either table is deleted: each old client row
    has its own row afterwards with the same id, email, name, company and
    created_at, and with subscribed true only if it was true before; each
    old newsletter row has its own row afterwards with the same id,
    subject, content and created_at.  Nothing is said of the order of the
    rows. *)
Theorem rows_only_evolve env rs w :
  rows_survive client_evolves (clients (db w)) (clients (db (serve env rs w)))
  /\ rows_survive newsletter_evolves (newsletters (db w))
                  (newsletters (db (serve env rs w))).
Proof.
  destruct (serve_keeps_db db_evolves db_evolves_refl db_evolves_trans
              insert_client_evolves insert_newsletter_evolves
              update_sent_count_evolves update_unsubscribe_evolves env rs w)
    as [C N].
  split; apply rows_evolve_survive; assumption.
Qed.

(** *** An unsubscribed email stays unsubscribed *)

Lemma unsubscribed_not_subscriber e d :
  unsubscribed_for e d -> ~ In e (map c_email (subscribers d)).
Proof.
  intros [_ U] I. apply in_map_iff in I. destruct I as (c & E & I).
  unfold subscribers in I. apply filter_In in I. destruct I as [I S].
  rewrite (U c I E) in S. discriminate.
Qed.

Lemma insert_client_unsubscribed e email name company now d :
  unsubscribed_for e d -> unsubscribed_for e (snd (insert_client email name company now d)).
Proof.
  intros [I U]. unfold insert_client.
  destruct email as [e'|]; [|split; assumption].
  destruct (existsb (has_email e') (clients d)) eqn:X; [split; assumption|].
  split; simpl.
  - unfold emails. simpl. rewrite map_app. apply in_app_iff. left. exact I.
  - intros c Ic E. apply in_app_iff in Ic. destruct Ic as [Ic|[<-|[]]]; [auto|].
    simpl in E. subst e'. apply existsb_has_email in I. unfold emails in I. congruence.
Qed.

Lemma update_unsubscribe_unsubscribed e email now d :
  unsubscribed_for e d -> unsubscribed_for e (snd (update_unsubscribe email now d)).
Proof.
  intros [I U]. split.
  - rewrite update_unsubscribe_emails. exact I.
  - simpl. intros c' Ic E. apply in_map_iff in Ic. destruct Ic as (c & <- & Ic).
    rewrite unsubscribe_row_email in E. specialize (U c Ic E).
    unfold unsubscribe_row. destruct email as [x|]; [|exact U].
    destruct (has_email x c); [reflexivity | exact U].
Qed.

Lemma after_unsubscribed env e r w :
  unsubscribed_for e (db w) -> unsubscribed_for e (db (after env r w)).
Proof.
  apply (after_keeps_db (fun d d' => unsubscribed_for e d -> unsubscribed_for e d')).
  - auto.
  - auto.
  - intros. apply insert_client_unsubscribed. assumption.
  - intros subject content now d. unfold insert_newsletter.
    destruct subject, content; auto.
  - auto.
  - intros. apply update_unsubscribe_unsubscribed. assumption.
Qed.

Lemma serve_unsubscribed env e rs :
  forall w,
    unsubscribed_for e (db w) ->
    unsubscribed_for e (db (serve env rs w))
    /\ exists extra,
        outbox (serve env rs w) = outbox w ++ extra /\ ~ In e (recipients extra).
Proof.
  induction rs as [|r rs IH]; intros w U; simpl.
  - split; [exact U|]. exists []. rewrite app_nil_r. split; [reflexivity | intros []].
  - destruct (after_outbox env r w) as (x1 & O1 & _ & I1).
    destruct (IH (after env r w) (after_unsubscribed env e r w U)) as (U2 & x2 & O2 & N2).
    split; [exact U2|]. exists (x1 ++ x2). rewrite O2, O1, app_assoc.
    split; [reflexivity|]. unfold recipients in *. rewrite map_app. intro I.
    apply in_app_iff in I. destruct I as [I|I]; [|exact (N2 I)].
    exact (unsubscribed_not_subscriber e (db w) U (I1 e I)).
Qed.

(** X13: once the database has accepted an unsubscribe for an email that
    has a row, no later request, whichever and however many, makes the
    server mail that email again or sets its row back to subscribed: a
    creation with the same email is a conflict, and no route writes
    subscribed = true. *)
Theorem unsubscribe_is_permanent env e rs w :
  In e (emails (db w)) ->
  pool_fault env (statements w) = None ->
  unsubscribed_for e (db (serve env rs (after env (PostUnsubscribe (Some e)) w)))
  /\ exists extra,
      outbox (serve env rs (after env (PostUnsubscribe (Some e)) w)) = outbox w ++ extra
      /\ ~ In e (recipients extra).
Proof.
  intros I H.
  assert (E : after env (PostUnsubscribe (Some e)) w
              = mkWorld (mkDb (map (unsubscribe_row (Some e)) (clients (db w)))
                              (clients_id_seq (db w)) (newsletters (db w))
                              (newsletters_id_seq (db w)))
                        (S (statements w)) (outbox w) (console w)).
  { unfold after. simpl handle. rewrite (post_unsubscribe_ok _ _ _ H). reflexivity. }
  assert (U : unsubscribed_for e (db (after env (PostUnsubscribe (Some e)) w))).
  { rewrite E. split.
    - unfold emails. simpl. rewrite map_map.
      rewrite (map_ext _ c_email); [exact I|]. intro c. apply unsubscribe_row_email.
    - simpl. intros c' Ic X. apply in_map_iff in Ic. destruct Ic as (c & <- & Ic).
      rewrite unsubscribe_row_email in X.
      rewrite (unsubscribe_row_match e c X). reflexivity. }
  destruct (serve_unsubscribed env e rs _ U) as (U' & extra & O & N).
  split; [exact U'|]. exists extra. rewrite O, E. split; [reflexivity | exact N].
Qed.

Lemma unsubscribe_is_permanent_witness :
  exists extra,
    outbox (serve all_delivered
              [subscribe "a@example.com"; PostNewslettersSend 1 None;
               PostNewslettersSend 1 None]
              (after all_delivered (PostUnsubscribe (Some "a@example.com"))
                     two_subscribers))
    = outbox two_subscribers ++ extra
    /\ ~ In "a@example.com" (recipients extra).
Proof.
  destruct (unsubscribe_is_permanent all_delivered "a@example.com"
              [subscribe "a@example.com"; PostNewslettersSend 1 None;
               PostNewslettersSend 1 None]
              two_subscribers) as (_ & extra & O & N).
  - left. reflexivity.
  - reflexivity.
  - exists extra. split; [exact O | exact N].
Defined.

(** *** Primary keys *)

Lemma Forall_lt_succ {A} (key : A -> Z) (bound : Z) (l : list A) :
  Forall (fun a => (key a < bound)%Z) l -> Forall (fun a => (key a < bound + 1)%Z) l.
Proof. apply Forall_impl. intros a H. lia. Qed.

Lemma NoDup_fresh_key {A} (key : A -> Z) (bound : Z) (l : list A) (x : A) :
  NoDup (map key l) -> Forall (fun a => (key a < bound)%Z) l -> key x = bound ->
  NoDup (map key (l ++ [x])).
Proof.
  intros N F E. rewrite map_app. apply NoDup_app; [exact N | repeat constructor; intros [] |].
  intros k Ik [<-|[]]. apply in_map_iff in Ik. destruct Ik as (a & Ea & Ia).
  rewrite Forall_forall in F. specialize (F a Ia). lia.
Qed.

Lemma insert_client_keys email name company now d :
  keys_fresh d -> keys_fresh (snd (insert_client email name company now d)).
Proof.
  intros (N1 & F1 & N2 & F2). unfold insert_client, keys_fresh.
  destruct email as [e|]; simpl;
    [|repeat split; auto; apply Forall_lt_succ; exact F1].
  destruct (existsb (has_email e) (clients d)); simpl;
    [repeat split; auto; apply Forall_lt_succ; exact F1|].
  repeat split; auto.
  - apply (NoDup_fresh_key c_id (clients_id_seq d)); auto.
  - apply Forall_app. split; [apply Forall_lt_succ; exact F1|].
    constructor; [simpl; lia | constructor].
Qed.

Lemma insert_newsletter_keys subject content now d :
  keys_fresh d -> keys_fresh (snd (insert_newsletter subject content now d)).
Proof.
  intros (N1 & F1 & N2 & F2). unfold insert_newsletter, keys_fresh.
  destruct subject as [s|], content as [c|]; simpl;
    try (repeat split; auto; apply Forall_lt_succ; exact F2).
  repeat split; auto.
  - apply (NoDup_fresh_key n_id (newsletters_id_seq d)); auto.
  - apply Forall_app. split; [apply Forall_lt_succ; exact F2|].
    constructor; [simpl; lia | constructor].
Qed.

Lemma update_sent_count_keys count id now d :
  keys_fresh d -> keys_fresh (snd (update_sent_count count id now d)).
Proof.
  intros (N1 & F1 & N2 & F2). unfold keys_fresh. simpl.
  rewrite map_map, (map_ext _ n_id) by (intro n; apply store_sent_count_id).
  repeat split; auto.
  rewrite Forall_map. eapply Forall_impl; [|exact F2].
  intros n H. simpl. rewrite store_sent_count_id. exact H.
Qed.

Lemma unsubscribe_row_id email c : c_id (unsubscribe_row email c) = c_id c.
Proof.
  unfold unsubscribe_row. destruct email as [e|]; [|reflexivity].
  destruct (has_email e c); reflexivity.
Qed.

Lemma update_unsubscribe_keys email now d :
  keys_fresh d -> keys_fresh (snd (update_unsubscribe email now d)).
Proof.
  intros (N1 & F1 & N2 & F2). unfold keys_fresh. simpl.
  rewrite map_map, (map_ext _ c_id) by (intro c; apply unsubscribe_row_id).
  repeat split; auto.
  rewrite Forall_map. eapply Forall_impl; [|exact F1].
  intros c H. simpl. rewrite unsubscribe_row_id. exact H.
Qed.

Lemma serve_keys env rs w : keys_fresh (db w) -> keys_fresh (db (serve env rs w)).
Proof.
  apply (serve_keeps_db (fun d d' => keys_fresh d -> keys_fresh d')).
  - auto.
  - auto.
  - intros. apply insert_client_keys. assumption.
  - intros. apply insert_newsletter_keys. assumption.
  - intros. apply update_sent_count_keys. assumption.
  - intros. apply update_unsubscribe_keys. assumption.
Qed.

Lemma one_row_per_key {A} (key : A -> Z) (k : Z) (l : list A) :
  NoDup (map key l) -> List.length (filter (fun a => (key a =? k)%Z) l) <= 1.
Proof.
  induction l as [|a l IH]; simpl; intro N; [lia|].
  inversion N as [|x m Nx Nl]; subst.
  destruct (Z.eqb_spec (key a) k) as [E|E]; [|auto].
  simpl. rewrite filter_none; [simpl; lia|].
  intros b Ib. apply Z.eqb_neq. intro Eb. apply Nx. rewrite E, <- Eb.
  apply in_map. exact Ib.
Qed.

(** X14: starting from the empty tables and whatever the requests served
    and the answers of the database, the ids of each table are pairwise
    distinct and below the table's sequence; so an id names at most one
    newsletter row, the one a send for that id reads and updates. *)
Theorem primary_keys_stay_fresh env rs :
  keys_fresh (db (serve env rs initial_world))
  /\ forall id,
      List.length (filter (has_id id) (newsletters (db (serve env rs initial_world)))) <= 1.
Proof.
  assert (K : keys_fresh (db (serve env rs initial_world))).
  { apply serve_keys. simpl. repeat split; constructor. }
  split; [exact K|]. intro id. destruct K as (_ & _ & N & _).
  apply (one_row_per_key n_id id). exact N.
Qed.

(** ** Answers and what they mean *)

Lemma post_clients_fault env email name company w msg :
  pool_fault env (statements w) = Some msg ->
  post_clients env email name company w =
  (Return (mkResponse 500 (JError msg)),
   mkWorld (db w) (S (statements w)) (outbox w)
           (console w ++ [Error [Text "Error adding client:"; Err (DatabaseError msg)]])).
Proof.
  intro H. unfold post_clients, try_catch, bind, pool_query. rewrite H. reflexivity.
Qed.

Lemma post_clients_null env name company w :
  pool_fault env (statements w) = None ->
  post_clients env None name company w =
  (Return (mkResponse 500 (JError (message (not_null_violation "email" "clients")))),
   mkWorld (mkDb (clients (db w)) (clients_id_seq (db w) + 1) (newsletters (db w))
                 (newsletters_id_seq (db w)))
           (S (statements w)) (outbox w)
           (console w ++ [Error [Text "Error adding client:";
                                 Err (not_null_violation "email" "clients")]])).
Proof.
  intro H. unfold post_clients, try_catch, bind, pool_query, insert_client.
  rewrite H. reflexivity.
Qed.

Ltac answer_cases :=
  repeat match goal with
         | |- context [pool_fault ?env ?k] => destruct (pool_fault env k); simpl
         end;
  eexists; (split; [reflexivity|]); simpl;
  (split; [tauto|]);
  (split; [first [ let Hne := fresh in intro Hne; exfalso; apply Hne; reflexivity
                 | auto ] |]);
  (split; [first [ discriminate | reflexivity ] | first [ discriminate | reflexivity ]]).

(** X15: every request is answered, with status 200, 404, 409 or 500; 404
    comes only from a send and 409 only from a client creation; and a
    request answered with anything but 200 has left the rows of both tables
    exactly as they were. *)
Theorem failed_requests_write_no_row env r w :
  exists resp,
    answer_of env r w = Return resp
    /\ In (status resp) [200; 404; 409; 500]
    /\ (status resp <> 200 ->
        clients (db (after env r w)) = clients (db w)
        /\ newsletters (db (after env r w)) = newsletters (db w))
    /\ (status resp = 404 -> is_send r = true)
    /\ (status resp = 409 -> is_post_clients r = true).
Proof.
  unfold answer_of, after. destruct r; simpl handle.
  - destruct (pool_fault env (statements w)) as [msg|] eqn:H.
    { rewrite (post_clients_fault _ _ _ _ _ _ H). eexists. split; [reflexivity|].
      simpl. split; [tauto|]. split; [auto|]. split; [discriminate | reflexivity]. }
    destruct email as [e|].
    + destruct (in_dec string_dec e (emails (db w))) as [I|I].
      * rewrite (post_clients_again _ _ _ _ _ H I). eexists. split; [reflexivity|].
        simpl. split; [tauto|]. split; [auto|]. split; [discriminate | reflexivity].
      * rewrite (post_clients_new _ _ _ _ _ H I). eexists. split; [reflexivity|].
        simpl. split; [tauto|].
        split; [intro N; exfalso; apply N; reflexivity|].
        split; [discriminate | reflexivity].
    + rewrite (post_clients_null _ _ _ _ H). eexists. split; [reflexivity|].
      simpl. split; [tauto|]. split; [auto|]. split; [discriminate | reflexivity].
  - unfold get_clients, try_catch, bind, pool_query, select_clients. answer_cases.
  - unfold post_newsletters, try_catch, bind, pool_query, insert_newsletter.
    destruct subject, content; answer_cases.
  - unfold get_newsletters, try_catch, bind, pool_query, select_newsletters. answer_cases.
  - destruct (send_outcome env id origin w) as (D & _ & [(e & R) | R]);
      rewrite R, D; eexists; (split; [reflexivity|]); simpl;
      (split; [tauto|]); (split; [auto|]); (split; [reflexivity | discriminate]).
  - unfold get_stats, try_catch, bind, pool_query,
           count_clients, count_subscribed, count_newsletters. answer_cases.
  - unfold post_unsubscribe, try_catch, bind, pool_query, update_unsubscribe.
    answer_cases.
Qed.

(** ** What reaches the console *)

Lemma same_console_trans a b c : same_console a b -> same_console b c -> same_console a c.
Proof. unfold same_console. congruence. Qed.

Ltac keeps_console :=
  repeat first
    [ apply keeps_try_catch; [exact same_console_trans | | intro ]
    | apply keeps_bind; [exact same_console_trans | | intro ]
    | apply keeps_ret; reflexivity
    | (intro; reflexivity)
    | (intro; apply pool_query_outbox) ].

Lemma quiet_routes env r w :
  is_post_clients r = false -> is_send r = false -> console (after env r w) = console w.
Proof.
  intros P S. unfold after. revert w. change (keeps same_console (handle env r)).
  destruct r; try discriminate; simpl;
    unfold get_clients, post_newsletters, get_newsletters, get_stats, post_unsubscribe.
  - keeps_console.
  - keeps_console.
  - keeps_console.
  - keeps_console.
  - keeps_console.
Qed.

(** X16: only client creation and sending write to the console.  The
    other routes leave it as it was even when they answer 500; a client
    creation writes one error line, holding the error it answers with,
    exactly when it answers 500, so a 409 conflict is not logged. *)
Theorem console_records_failures env r w :
  (is_post_clients r = false -> is_send r = false ->
   console (after env r w) = console w)
  /\ (forall email name company,
        r = PostClients email name company ->
        (exists e,
            answer_of env r w = Return (mkResponse 500 (JError (message e)))
            /\ console (after env r w)
               = console w ++ [Error [Text "Error adding client:"; Err e]])
        \/ (exists resp,
               answer_of env r w = Return resp
               /\ status resp <> 500
               /\ console (after env r w) = console w)).
Proof.
  split; [apply quiet_routes|].
  intros email name company ->. unfold answer_of, after. simpl handle.
  destruct (pool_fault env (statements w)) as [msg|] eqn:H.
  { rewrite (post_clients_fault _ _ _ _ _ _ H). left.
    exists (DatabaseError msg). split; reflexivity. }
  destruct email as [e|].
  - right. destruct (in_dec string_dec e (emails (db w))) as [I|I].
    + rewrite (post_clients_again _ _ _ _ _ H I).
      eexists. split; [reflexivity|]. split; [discriminate | reflexivity].
    + rewrite (post_clients_new _ _ _ _ _ H I).
      eexists. split; [reflexivity|]. split; [discriminate | reflexivity].
  - rewrite (post_clients_null _ _ _ _ H). left.
    exists (not_null_violation "email" "clients"). split; reflexivity.
Qed.

(** ** More on the message *)

Lemma replace_newlines_app (a b : string) :
  replace_newlines (a ++ b) = (replace_newlines a ++ replace_newlines b)%string.
Proof.
  induction a as [|c a IH]; simpl; [reflexivity|].
  destruct (Ascii.eqb c LF); rewrite IH; reflexivity.
Qed.

Lemma string_length_app (a b : string) :
  String.length (a ++ b) = String.length a + String.length b.
Proof. induction a as [|c a IH]; simpl; [|rewrite IH]; reflexivity. Qed.

(** X17: replacing the newlines of a text leaves no newline character in
    it, leaves a text without newlines as it is, can be done piece by piece
    (the replacement of a concatenation is the concatenation of the
    replacements) and lengthens the text by three characters per newline. *)
Theorem replace_newlines_algebra :
  (forall s, has_newline (replace_newlines s) = false)
  /\ (forall s, has_newline s = false -> replace_newlines s = s)
  /\ (forall a b,
        replace_newlines (a ++ b) = (replace_newlines a ++ replace_newlines b)%string)
  /\ (forall s,
        String.length (replace_newlines s) = String.length s + 3 * count_newlines s).
Proof.
  split; [|split; [|split]].
  - induction s as [|c s IH]; simpl; [reflexivity|].
    destruct (Ascii.eqb c LF) eqn:E; simpl; [exact IH|]. rewrite E. exact IH.
  - induction s as [|c s IH]; simpl; [reflexivity|].
    destruct (Ascii.eqb c LF); simpl; [discriminate|].
    intro H. rewrite (IH H). reflexivity.
  - exact replace_newlines_app.
  - induction s as [|c s IH]; simpl; [reflexivity|].
    destruct (Ascii.eqb c LF); simpl; rewrite IH; lia.
Qed.

Lemma replace_newlines_algebra_witness :
  replace_newlines "Novosti" = "Novosti"
  /\ String.length (replace_newlines ("Prvi red" ++ nl ++ "Drugi red")) = 18 + 3 * 1.
Proof.
  destruct replace_newlines_algebra as (_ & Same & _ & Len).
  split; [apply Same; reflexivity | exact (Len ("Prvi red" ++ nl ++ "Drugi red")%string)].
Defined.

(** ** Creating a newsletter *)

Lemma post_newsletters_row env s c w :
  pool_fault env (statements w) = None ->
  post_newsletters env (Some s) (Some c) w =
  (Return (mkResponse 200
             (JNewsletter "Newsletter kreiran"
                (Some (mkNewsletter (newsletters_id_seq (db w)) s c 0
                                    (CURRENT_TIMESTAMP env (statements w)))))),
   mkWorld (mkDb (clients (db w)) (clients_id_seq (db w))
                 (newsletters (db w)
                  ++ [mkNewsletter (newsletters_id_seq (db w)) s c 0
                                   (CURRENT_TIMESTAMP env (statements w))])
                 (newsletters_id_seq (db w) + 1))
           (S (statements w)) (outbox w) (console w)).
Proof.
  intro H. unfold post_newsletters, try_catch, bind, pool_query, insert_newsletter.
  rewrite H. reflexivity.
Qed.

(** X19: on a database that accepts the INSERT, creating a newsletter
    with a subject and a content answers 200 with the new row, whose
    sent_count is 0 and whose id is the sequence's value, and appends that
    row; a send for that id afterwards never answers 404.  With the
    subject or the content missing the answer is 500 with the NOT NULL
    message of the first missing column, and no row is added. *)
Theorem post_newsletters_creates env subject content w :
  pool_fault env (statements w) = None ->
  (forall s c,
      subject = Some s -> content = Some c ->
      exists row,
        fst (post_newsletters env subject content w)
        = Return (mkResponse 200 (JNewsletter "Newsletter kreiran" (Some row)))
        /\ row = mkNewsletter (newsletters_id_seq (db w)) s c 0
                              (CURRENT_TIMESTAMP env (statements w))
        /\ newsletters (db (snd (post_newsletters env subject content w)))
           = newsletters (db w) ++ [row]
        /\ clients (db (snd (post_newsletters env subject content w))) = clients (db w)
        /\ forall env' origin resp,
            fst (post_newsletters_send env' (n_id row) origin
                   (snd (post_newsletters env subject content w))) = Return resp ->
            status resp <> 404)
  /\ (subject = None ->
      fst (post_newsletters env subject content w)
      = Return (mkResponse 500
                  (JError (message (not_null_violation "subject" "newsletters"))))
      /\ newsletters (db (snd (post_newsletters env subject content w)))
         = newsletters (db w))
  /\ (forall s, subject = Some s -> content = None ->
      fst (post_newsletters env subject content w)
      = Return (mkResponse 500
                  (JError (message (not_null_violation "content" "newsletters"))))
      /\ newsletters (db (snd (post_newsletters env subject content w)))
         = newsletters (db w)).
Proof.
  intro H. split; [|split].
  - intros s c -> ->. rewrite (post_newsletters_row _ _ _ _ H).
    eexists. split; [reflexivity|]. split; [reflexivity|].
    split; [reflexivity|]. split; [reflexivity|].
    intros env' origin resp E St.
    set (w' := mkWorld _ _ _ _) in E.
    destruct (pool_fault env' (statements w')) as [msg|] eqn:H1.
    { rewrite (send_first_fault _ _ _ _ _ H1) in E. injection E as <-. discriminate. }
    destruct (filter (has_id (newsletters_id_seq (db w))) (newsletters (db w')))
      as [|n rest] eqn:F.
    { assert (I : In (mkNewsletter (newsletters_id_seq (db w)) s c 0
                                   (CURRENT_TIMESTAMP env (statements w)))
                     (filter (has_id (newsletters_id_seq (db w))) (newsletters (db w')))).
      { apply filter_In. split.
        - unfold w'. simpl. apply in_app_iff. right. left. reflexivity.
        - unfold has_id. simpl. apply Z.eqb_refl. }
      rewrite F in I. contradiction. }
    simpl n_id in E.
    destruct (pool_fault env' (S (statements w'))) as [msg|] eqn:H2.
    { rewrite (send_second_fault _ _ _ _ _ _ _ H1 F H2) in E.
      injection E as <-. discriminate. }
    rewrite (send_transporter_fault _ _ _ _ _ _ H1 F H2) in E.
    injection E as <-. discriminate.
  - intros ->. unfold post_newsletters, try_catch, bind, pool_query, insert_newsletter.
    rewrite H. split; reflexivity.
  - intros s -> ->.
    unfold post_newsletters, try_catch, bind, pool_query, insert_newsletter.
    rewrite H. split; reflexivity.
Qed.

Lemma post_newsletters_creates_witness :
  exists row,
    fst (post_newsletters no_credentials (Some "Drugi broj") (Some "Tekst") five_subscribers)
    = Return (mkResponse 200 (JNewsletter "Newsletter kreiran" (Some row)))
    /\ n_id row = 2%Z /\ n_sent_count row = 0%Z.
Proof.
  destruct (post_newsletters_creates no_credentials (Some "Drugi broj") (Some "Tekst")
              five_subscribers eq_refl) as (Ok & _ & _).
  destruct (Ok "Drugi broj" "Tekst" eq_refl eq_refl) as (row & R & -> & _).
  eexists. split; [exact R|]. split; reflexivity.
Defined.

(** ** Subscribers over time *)

Lemma unsubscribe_one_fewer cs c :
  NoDup (map c_email cs) -> In c cs -> c_subscribed c = true ->
  S (List.length (filter c_subscribed (map (unsubscribe_row (Some (c_email c))) cs)))
  = List.length (filter c_subscribed cs).
Proof.
  induction cs as [|a l IH]; intros N I Sc; [contradiction|].
  cbn [map filter] in *.
  inversion N as [|x m Nx Nl]; subst.
  destruct (String.eqb_spec (c_email a) (c_email c)) as [E|E].
  - assert (a = c) as ->.
    { destruct I as [I|I]; [exact I|]. exfalso. apply Nx. rewrite E.
      apply in_map. exact I. }
    rewrite (unsubscribe_row_match (c_email c) c eq_refl). cbn [c_subscribed set_subscribed].
    rewrite Sc. cbn [List.length]. f_equal.
    rewrite (map_ext_in _ (fun x => x)), map_id; [reflexivity|].
    intros b Ib. apply unsubscribe_row_other. intros [= Eb]. apply Nx. rewrite <- Eb.
    apply in_map. exact Ib.
  - destruct I as [I|I]; [subst; contradiction|].
    rewrite (unsubscribe_row_other (Some (c_email c)) a) by (intros [= X]; contradiction).
    destruct (c_subscribed a); cbn [List.length]; rewrite <- (IH Nl I Sc); reflexivity.
Qed.

(** X20: how the counts of the statistics route move.  An accepted
    creation with a new email adds one client and one subscriber; an
    accepted unsubscribe for an email whose row is subscribed, emails being
    unique, keeps the number of clients and takes one subscriber away; an
    unsubscribe for an email that no subscribed row has changes neither. *)
Theorem subscriber_counts_follow_requests env w :
  pool_fault env (statements w) = None ->
  (forall e name company,
      ~ In e (emails (db w)) ->
      List.length (clients (db (after env (PostClients (Some e) name company) w)))
      = S (List.length (clients (db w)))
      /\ List.length (subscribers (db (after env (PostClients (Some e) name company) w)))
         = S (List.length (subscribers (db w))))
  /\ (forall c,
        emails_unique (db w) -> In c (clients (db w)) -> c_subscribed c = true ->
        List.length (clients (db (after env (PostUnsubscribe (Some (c_email c))) w)))
        = List.length (clients (db w))
        /\ S (List.length
                (subscribers (db (after env (PostUnsubscribe (Some (c_email c))) w))))
           = List.length (subscribers (db w)))
  /\ (forall email,
        (forall c, In c (clients (db w)) -> Some (c_email c) = email ->
                   c_subscribed c = false) ->
        subscribers (db (after env (PostUnsubscribe email) w)) = subscribers (db w)
        /\ List.length (clients (db (after env (PostUnsubscribe email) w)))
           = List.length (clients (db w))).
Proof.
  intro H. split; [|split].
  - intros e name company N. unfold after. simpl handle.
    rewrite (post_clients_new _ _ _ _ _ H N). unfold subscribers. simpl.
    rewrite filter_app, !length_app. simpl. lia.
  - intros c U I Sc. unfold after. simpl handle.
    rewrite (post_unsubscribe_ok _ _ _ H). unfold subscribers. simpl.
    rewrite length_map. split; [reflexivity|].
    apply unsubscribe_one_fewer; assumption.
  - intros email A. unfold after. simpl handle.
    rewrite (post_unsubscribe_ok _ _ _ H). unfold subscribers. simpl.
    rewrite length_map. split; [|reflexivity].
    induction (clients (db w)) as [|a l IH]; simpl; [reflexivity|].
    assert (Ea : c_subscribed (unsubscribe_row email a) = c_subscribed a).
    { unfold unsubscribe_row. destruct email as [e|]; [|reflexivity].
      unfold has_email. destruct (String.eqb_spec (c_email a) e) as [E|E]; [|reflexivity].
      simpl. symmetry. apply A; [left; reflexivity | subst; reflexivity]. }
    rewrite Ea. destruct (c_subscribed a) eqn:Sa.
    + rewrite IH by (intros c Ic; apply A; right; exact Ic).
      f_equal. apply unsubscribe_row_other. intro X.
      rewrite (A a (or_introl eq_refl) X) in Sa. discriminate.
    + apply IH. intros c Ic. apply A. right. exact Ic.
Qed.

Lemma subscriber_counts_follow_requests_witness :
  List.length (clients (db (after no_credentials (PostUnsubscribe (Some "a@example.com"))
                                  five_subscribers))) = 5
  /\ List.length (subscribers
                    (db (after no_credentials (PostUnsubscribe (Some "a@example.com"))
                               five_subscribers))) = 4.
Proof.
  destruct (subscriber_counts_follow_requests no_credentials five_subscribers eq_refl)
    as (_ & U & _).
  destruct (U (mkClient 1 "a@example.com" None None true 0)) as (C & S4).
  - apply (serve_keeps_emails no_credentials
             [subscribe "a@example.com"; subscribe "b@example.com";
              subscribe "c@example.com"; subscribe "d@example.com";
              subscribe "e@example.com"; newsletter_request] initial_world).
    constructor.
  - left. reflexivity.
  - reflexivity.
  - split; [exact C|]. exact (eq_add_S _ 4 S4).
Defined.

(** X23: a client created with a new email shows up in the next listing:
    on a healthy database the creation answers 200 with a row and the
    listing that follows answers 200 with that row among its rows, one row
    more than the table had. *)
Theorem created_client_is_listed env e name company w :
  pool_fault env (statements w) = None ->
  pool_fault env (S (statements w)) = None ->
  ~ In e (emails (db w)) ->
  exists row rows,
    fst (post_clients env (Some e) name company w)
    = Return (mkResponse 200 (JClient "Klijent uspješno dodan" row))
    /\ fst (get_clients env (snd (post_clients env (Some e) name company w)))
       = Return (mkResponse 200 (JClients rows))
    /\ In row rows
    /\ c_email row = e
    /\ List.length rows = S (List.length (clients (db w))).
Proof.
  intros H1 H2 N. rewrite (post_clients_new _ _ _ _ _ H1 N). simpl fst. simpl snd.
  unfold get_clients, try_catch, bind, pool_query, select_clients. simpl.
  rewrite H2. simpl.
  do 2 eexists. split; [reflexivity|]. split; [reflexivity|].
  split; [|split; [reflexivity|]].
  - eapply Permutation_in; [symmetry; apply order_by_desc_perm|].
    apply in_app_iff. right. left. reflexivity.
  - rewrite (Permutation_length (order_by_desc_perm c_created_at _)).
    rewrite length_app. simpl. lia.
Qed.

Lemma created_client_is_listed_witness :
  exists row rows,
    fst (get_clients no_credentials
           (snd (post_clients no_credentials (Some "z@example.com") None None
                   two_subscribers)))
    = Return (mkResponse 200 (JClients rows))
    /\ In row rows /\ c_email row = "z@example.com" /\ List.length rows = 3.
Proof.
  destruct (created_client_is_listed no_credentials "z@example.com" None None
              two_subscribers eq_refl eq_refl) as (row & rows & _ & L & I & E & Len).
  - simpl. intros [X|[X|[]]]; discriminate.
  - exists row, rows. split; [exact L|]. split; [exact I|]. split; [exact E | exact Len].
Defined.
